(** * RNSE v0.74 audit suite: a shallow embedding of [rnse_test_suite.py]

    The development follows the Python module top-down:

    - [Py]        : exceptions as an error monad (a raised exception is
                    identified by its class name);
    - [Sha256]    : [hashlib.sha256(...).hexdigest()], after FIPS 180-4;
    - [Json]      : [json.dumps(obj, indent=2)] as [AuditLog.finalize] calls it;
    - [F64]       : IEEE-754 binary64 scalars ([float], [np.float64]);
    - [Np]        : the NumPy reductions the module uses;
    - [Suite]     : [AuditMetadata], [SimulationConfig], [RotationCurveResult],
                    [MultiThreadRNSE], [AuditLog] and [run_full_suite].

    Theorems about the embedding come after all definitions. *)

From Stdlib Require Import ZArith List String Ascii Bool Lia FinFun.
From Stdlib Require Import SpecFloat.
Import ListNotations.

Local Open Scope Z_scope.

(* ================================================================== *)
(** ** Python exceptions *)

Module Py.

(** The outcome of a Python call: a value, or a raised exception named by
    its class. *)
Inductive result (A : Type) : Type :=
| Ok (a : A)
| Raise (cls : string).
Arguments Ok {A} a.
Arguments Raise {A} cls.

Definition bind {A B} (m : result A) (k : A -> result B) : result B :=
  match m with
  | Ok a => k a
  | Raise c => Raise c
  end.

Definition is_ok {A} (m : result A) : bool :=
  match m with Ok _ => true | Raise _ => false end.

End Py.

Notation "'do' x <- m ; k" := (Py.bind m (fun x => k))
  (at level 10, x name, m at level 100, k at level 200).
Notation "'do' ' p <- m ; k" := (Py.bind m (fun z => let p := z in k))
  (at level 10, p strict pattern, m at level 100, k at level 200).

(* ================================================================== *)
(** ** SHA-256 ([hashlib.sha256]) *)

Module Sha256.

Definition mask32 : Z := 0xffffffff.
Definition w32 (x : Z) : Z := Z.land x mask32.
Definition add32 (x y : Z) : Z := w32 (x + y).

Definition rotr (n x : Z) : Z :=
  Z.lor (Z.shiftr x n) (w32 (Z.shiftl x (32 - n))).
Definition shr (n x : Z) : Z := Z.shiftr x n.

Definition ch (x y z : Z) : Z :=
  Z.lxor (Z.land x y) (Z.land (Z.lxor x mask32) z).
Definition maj (x y z : Z) : Z :=
  Z.lxor (Z.lxor (Z.land x y) (Z.land x z)) (Z.land y z).
Definition bsig0 (x : Z) : Z :=
  Z.lxor (Z.lxor (rotr 2 x) (rotr 13 x)) (rotr 22 x).
Definition bsig1 (x : Z) : Z :=
  Z.lxor (Z.lxor (rotr 6 x) (rotr 11 x)) (rotr 25 x).
Definition ssig0 (x : Z) : Z :=
  Z.lxor (Z.lxor (rotr 7 x) (rotr 18 x)) (shr 3 x).
Definition ssig1 (x : Z) : Z :=
  Z.lxor (Z.lxor (rotr 17 x) (rotr 19 x)) (shr 10 x).

(** The first [n] primes, by trial division. *)
Fixpoint primes_from (fuel n : nat) (candidate : Z) (found : list Z) : list Z :=
  match fuel, n with
  | O, _ | _, O => rev found
  | S fuel', S n' =>
      if existsb (fun p => candidate mod p =? 0) found
      then primes_from fuel' n (candidate + 1) found
      else primes_from fuel' n' (candidate + 1) (candidate :: found)
  end.

Definition primes (n : nat) : list Z := primes_from 400 n 2 [].

(** Integer cube root of a number below 2^108, one bit at a time. *)
Definition icbrt (x : Z) : Z :=
  fold_left (fun r i =>
               let r' := r + 2 ^ Z.of_nat i in
               if r' * r' * r' <=? x then r' else r)
            (rev (seq 0 36)) 0.

(** Section 4.2.2: the first 32 bits of the fractional parts of the cube
    roots of the first 64 primes. *)
Definition round_constants : list Z :=
  Eval vm_compute in map (fun p => w32 (icbrt (p * 2 ^ 96))) (primes 64).

(** Section 5.3.3: the first 32 bits of the fractional parts of the square
    roots of the first 8 primes. *)
Definition initial_hash : list Z :=
  Eval vm_compute in map (fun p => w32 (Z.sqrt (p * 2 ^ 64))) (primes 8).

(** Big-endian bytes of the low [8 * n] bits of [x]. *)
Fixpoint be_bytes (n : nat) (x : Z) : list Z :=
  match n with
  | O => []
  | S k => Z.land (Z.shiftr x (8 * Z.of_nat k)) 0xff :: be_bytes k x
  end.

(** Message padding: a 1 bit, zeros up to 56 mod 64 bytes, then the
    bit length on 64 bits. *)
Definition pad (msg : list Z) : list Z :=
  let len := Z.of_nat (List.length msg) in
  msg ++ [0x80] ++ repeat 0 (Z.to_nat ((55 - len) mod 64))
      ++ be_bytes 8 (8 * len).

Fixpoint words_of_bytes (l : list Z) : list Z :=
  match l with
  | b0 :: b1 :: b2 :: b3 :: rest =>
      (Z.shiftl b0 24 + Z.shiftl b1 16 + Z.shiftl b2 8 + b3)
        :: words_of_bytes rest
  | _ => []
  end.

(** Sixteen-word blocks; [fuel] bounds the number of blocks. *)
Fixpoint blocks (fuel : nat) (ws : list Z) : list (list Z) :=
  match fuel, ws with
  | O, _ | _, [] => []
  | S k, _ => firstn 16 ws :: blocks k (skipn 16 ws)
  end.

(** The message schedule, extended one word at a time from 16 to 64. *)
Fixpoint schedule (n : nat) (w : list Z) : list Z :=
  match n with
  | O => w
  | S k =>
      let t := List.length w in
      let at_ i := nth (t - i) w 0 in
      schedule k
        (w ++ [add32 (add32 (ssig1 (at_ 2%nat)) (at_ 7%nat))
                     (add32 (ssig0 (at_ 15%nat)) (at_ 16%nat))])
  end.

Record regs := Regs { ra : Z; rb : Z; rc : Z; rd : Z;
                      re : Z; rf : Z; rg : Z; rh : Z }.

Definition round (s : regs) (kw : Z * Z) : regs :=
  let '(k, w) := kw in
  let t1 := add32 (add32 (add32 (rh s) (bsig1 (re s)))
                         (add32 (ch (re s) (rf s) (rg s)) k)) w in
  let t2 := add32 (bsig0 (ra s)) (maj (ra s) (rb s) (rc s)) in
  Regs (add32 t1 t2) (ra s) (rb s) (rc s)
       (add32 (rd s) t1) (re s) (rf s) (rg s).

Definition regs_of (h : list Z) : regs :=
  Regs (nth 0 h 0) (nth 1 h 0) (nth 2 h 0) (nth 3 h 0)
       (nth 4 h 0) (nth 5 h 0) (nth 6 h 0) (nth 7 h 0).

Definition compress (h : list Z) (block : list Z) : list Z :=
  let s0 := regs_of h in
  let s := fold_left round (combine round_constants (schedule 48 block)) s0 in
  [ add32 (ra s0) (ra s); add32 (rb s0) (rb s);
    add32 (rc s0) (rc s); add32 (rd s0) (rd s);
    add32 (re s0) (re s); add32 (rf s0) (rf s);
    add32 (rg s0) (rg s); add32 (rh s0) (rh s) ].

Definition digest_words (msg : list Z) : list Z :=
  let ws := words_of_bytes (pad msg) in
  fold_left compress (blocks (List.length ws) ws) initial_hash.

Definition hex_digit (d : Z) : ascii :=
  nth (Z.to_nat d)
      [ "0"; "1"; "2"; "3"; "4"; "5"; "6"; "7";
        "8"; "9"; "a"; "b"; "c"; "d"; "e"; "f" ]%char "0"%char.

Fixpoint hex_fixed (n : nat) (x : Z) : string :=
  match n with
  | O => EmptyString
  | S k => String (hex_digit (Z.land (Z.shiftr x (4 * Z.of_nat k)) 0xf))
                  (hex_fixed k x)
  end.

(** [hashlib.sha256(msg).hexdigest()]: 64 lowercase hex characters. *)
Definition hexdigest (msg : list Z) : string :=
  fold_right (fun w acc => (hex_fixed 8 w ++ acc)%string) EmptyString
             (digest_words msg).

(** [str.encode] on text in the ASCII range, where UTF-8 is the identity
    on code points. *)
Definition bytes_of_string (s : string) : list Z :=
  map (fun c => Z.of_N (N_of_ascii c)) (list_ascii_of_string s).




End Sha256.

(* ================================================================== *)
(** ** JSON values and [json.dumps]

    A Python [str] is kept as a [string] whose characters are code points
    below 256.  A [float] leaf holds the text [json] writes for it
    ([float.__repr__], or [NaN], [Infinity], [-Infinity]); the values the
    suite logs are dicts, lists, strings, ints and floats. *)

Module Json.

Local Open Scope string_scope.

#[warnings="-register-all"]
Inductive json : Type :=
| JNull
| JBool (b : bool)
| JInt (n : Z)
| JFloat (text : string)
| JStr (s : string)
| JList (items : list json)
| JDict (items : list (string * json)).

Definition newline : ascii := "010"%char.
Definition dquote : ascii := "034"%char.
Definition backslash : ascii := "092"%char.

(** [int.__repr__] and [hex]. *)
Fixpoint digits (base : Z) (fuel : nat) (n : Z) (acc : string) : string :=
  match fuel with
  | O => acc
  | S k =>
      let acc' := String (Sha256.hex_digit (n mod base)) acc in
      if (n / base =? 0)%Z then acc' else digits base k (n / base) acc'
  end.

Definition unsigned_digits (base n : Z) : string :=
  digits base (S (Z.to_nat (Z.log2 n))) n "".

Definition repr_int (n : Z) : string :=
  if (n <? 0)%Z then "-" ++ unsigned_digits 10 (- n) else unsigned_digits 10 n.

Definition hex (n : Z) : string :=
  if (n <? 0)%Z then "-0x" ++ unsigned_digits 16 (- n)
  else "0x" ++ unsigned_digits 16 n.

(** [py_encode_basestring_ascii]: printable ASCII passes through, except
    the quote and the backslash; the rest is escaped. *)
Definition escape_char (c : ascii) : string :=
  let n := Z.of_N (N_of_ascii c) in
  if (n =? 92)%Z then "\\"
  else if (n =? 34)%Z then String backslash (String dquote "")
  else if (n =? 8)%Z then "\b"
  else if (n =? 12)%Z then "\f"
  else if (n =? 10)%Z then "\n"
  else if (n =? 13)%Z then "\r"
  else if (n =? 9)%Z then "\t"
  else if ((32 <=? n) && (n <=? 126))%Z then String c ""
  else "\u" ++ Sha256.hex_fixed 4 n.

Fixpoint escape (s : string) : string :=
  match s with
  | EmptyString => ""
  | String c rest => escape_char c ++ escape rest
  end.

Definition encode_str (s : string) : string :=
  String dquote (escape s ++ String dquote "").


Fixpoint spaces (n : nat) : string :=
  match n with
  | O => ""
  | S k => String " " (spaces k)
  end.

Fixpoint join (sep : string) (parts : list string) : string :=
  match parts with
  | [] => ""
  | [p] => p
  | p :: rest => p ++ sep ++ join sep rest
  end.

(** ['\n' + _indent * _current_indent_level] with [indent = 2]. *)
Definition newline_indent (level : nat) : string :=
  String newline (spaces (2 * level)).

(** [_iterencode] with [indent=2]: item separator [","], key separator
    [": "], keys in the dict's own (insertion) order. *)
Fixpoint iterencode (level : nat) (o : json) {struct o} : string :=
  match o with
  | JNull => "null"
  | JBool true => "true"
  | JBool false => "false"
  | JInt n => repr_int n
  | JFloat text => text
  | JStr s => encode_str s
  | JList [] => "[]"
  | JList items =>
      "[" ++ newline_indent (S level)
          ++ join ("," ++ newline_indent (S level))
                  (map (iterencode (S level)) items)
          ++ newline_indent level ++ "]"
  | JDict [] => "{}"
  | JDict items =>
      "{" ++ newline_indent (S level)
          ++ join ("," ++ newline_indent (S level))
                  (map (fun kv => encode_str (fst kv) ++ ": "
                                    ++ iterencode (S level) (snd kv)) items)
          ++ newline_indent level ++ "}"
  end.

(** [json.dumps(o, indent=2)]. *)
Definition dumps_indent2 (o : json) : string := iterencode 0 o.

(** The canonical form the specification speaks of: no indentation, no
    whitespace after separators, keys sorted
    ([json.dumps(o, sort_keys=True, separators=(",", ":"))]). *)
Fixpoint insert_sorted (kv : string * string) (l : list (string * string))
  : list (string * string) :=
  match l with
  | [] => [kv]
  | kv' :: rest =>
      if String.leb (fst kv) (fst kv') then kv :: l
      else kv' :: insert_sorted kv rest
  end.

Definition sort_items (l : list (string * string)) : list (string * string) :=
  fold_right insert_sorted [] l.

Fixpoint dumps_canonical (o : json) {struct o} : string :=
  match o with
  | JNull => "null"
  | JBool true => "true"
  | JBool false => "false"
  | JInt n => repr_int n
  | JFloat text => text
  | JStr s => encode_str s
  | JList items => "[" ++ join "," (map dumps_canonical items) ++ "]"
  | JDict items =>
      "{" ++ join ","
               (map (fun kv => encode_str (fst kv) ++ ":" ++ snd kv)
                    (sort_items
                       (map (fun kv => (fst kv, dumps_canonical (snd kv)))
                            items)))
          ++ "}"
  end.

End Json.

(* ================================================================== *)
(** ** IEEE-754 binary64 scalars

    Python's [float] and NumPy's [float64], as the standard library's
    executable specification of binary floating point at precision 53. *)

Module F64.

Definition float : Type := spec_float.

Definition prec : Z := 53.
Definition emax : Z := 1024.

Definition add : float -> float -> float := SFadd prec emax.
Definition sub : float -> float -> float := SFsub prec emax.
Definition mul : float -> float -> float := SFmul prec emax.
Definition div : float -> float -> float := SFdiv prec emax.
Definition sqrt : float -> float := SFsqrt prec emax.
Definition abs : float -> float := SFabs.
Definition ltb : float -> float -> bool := SFltb.
Definition leb : float -> float -> bool := SFleb.
Definition eqb : float -> float -> bool := SFeqb.

Definition is_nan (x : float) : bool :=
  match x with S754_nan => true | _ => false end.

(** Neither NaN nor negative (a zero of either sign counts). *)
Definition nonneg (x : float) : bool :=
  match x with
  | S754_nan => false
  | S754_zero _ => true
  | S754_infinity s | S754_finite s _ _ => negb s
  end.

(** A zero of either sign; a zero or a finite number. *)
Definition is_zero (x : float) : bool :=
  match x with S754_zero _ => true | _ => false end.

Definition is_finite (x : float) : bool :=
  match x with S754_zero _ | S754_finite _ _ _ => true | _ => false end.

(** Conversion of an [int] (an array length). *)
Definition of_Z (n : Z) : float := binary_normalize prec emax n 0 false.

Definition nan : float := S754_nan.
Definition zero : float := S754_zero false.
Definition half : float := S754_finite false 4503599627370496 (-53).
Definition one : float := S754_finite false 4503599627370496 (-52).
Definition two : float := S754_finite false 4503599627370496 (-51).
Definition five : float := S754_finite false 5629499534213120 (-50).
Definition ten : float := S754_finite false 5629499534213120 (-49).
Definition twenty : float := S754_finite false 5629499534213120 (-48).
Definition hundred : float := S754_finite false 7036874417766400 (-46).
(** The double nearest to [1e-9] and to [0.05]. *)
Definition eps : float := S754_finite false 4835703278458517 (-82).
Definition one_twentieth : float := S754_finite false 7205759403792794 (-57).

End F64.

Declare Scope f64_scope.
Delimit Scope f64_scope with f64.
Infix "+" := F64.add : f64_scope.
Infix "-" := F64.sub : f64_scope.
Infix "*" := F64.mul : f64_scope.
Infix "/" := F64.div : f64_scope.
Infix "<?" := F64.ltb : f64_scope.
Infix "<=?" := F64.leb : f64_scope.
Infix "=?" := F64.eqb : f64_scope.

(* ================================================================== *)
(** ** The NumPy operations of the module

    A one-dimensional array is a [list]; the [(N, 3)] coordinate matrix is a
    list of rows.  Sums run left to right (NumPy may associate a long sum
    differently; nothing below depends on how a sum rounds). *)

Module Np.

Import Py F64.
Local Open Scope f64_scope.

Definition row : Type := list float.

(** [np.cumsum]. *)
Fixpoint cumsum_from (acc : float) (l : list float) : list float :=
  match l with
  | [] => []
  | x :: rest => let acc' := acc + x in acc' :: cumsum_from acc' rest
  end.

Definition cumsum (l : list float) : list float :=
  match l with
  | [] => []
  | x :: rest => x :: cumsum_from x rest
  end.

(** [np.maximum] and [np.minimum] propagate NaN. *)
Definition maximum (a b : float) : float :=
  if (b <=? a) || is_nan a then a else b.
Definition minimum (a b : float) : float :=
  if (a <=? b) || is_nan a then a else b.

(** [np.max] and [np.min]: a zero-size array has no identity. *)
Definition amax (l : list float) : result float :=
  match l with
  | [] => Raise "ValueError"
  | x :: rest => Ok (fold_left maximum rest x)
  end.

Definition amin (l : list float) : result float :=
  match l with
  | [] => Raise "ValueError"
  | x :: rest => Ok (fold_left minimum rest x)
  end.

Definition sum (l : list float) : float := fold_left add l zero.

(** [np.mean]: the sum over the count; NaN (and a warning) when empty. *)
Definition mean (l : list float) : float :=
  sum l / of_Z (Z.of_nat (List.length l)).

(** [np.std]: root of the mean squared deviation. *)
Definition std (l : list float) : float :=
  let m := mean l in
  sqrt (mean (map (fun x => (x - m) * (x - m)) l)).

(** [np.linalg.norm(_, axis=1)] on one row. *)
Definition norm (v : row) : float := sqrt (sum (map (fun x => x * x) v)).

Fixpoint insert (x : float) (l : list float) : list float :=
  match l with
  | [] => [x]
  | y :: rest => if x <=? y then x :: l else y :: insert x rest
  end.

Definition sort (l : list float) : list float := fold_right insert [] l.

(** [np.median]: NaN as soon as one element is NaN, else the mean of the
    one or two middle elements of the sorted array. *)
Definition median (l : list float) : float :=
  if existsb is_nan l then nan
  else
    let s := sort l in
    let n := List.length l in
    match n with
    | O => nan
    | _ =>
        if Nat.odd n then mean [nth (Nat.div2 n) s nan]
        else mean [nth (Nat.div2 n - 1) s nan; nth (Nat.div2 n) s nan]
    end.

(** Boolean-mask indexing [a[mask]]. *)
Definition select {A} (mask : list bool) (a : list A) : list A :=
  map snd (filter fst (combine mask a)).

(** [np.column_stack] of one-dimensional arrays. *)
Definition column_stack (dims : list (list float)) : result (list row) :=
  match dims with
  | [] => Raise "ValueError"
  | d :: rest =>
      if forallb (fun d' => Nat.eqb (List.length d') (List.length d)) rest
      then Ok (map (fun i => map (fun col => nth i col nan) dims)
                   (seq 0 (List.length d)))
      else Raise "ValueError"
  end.

Definition row_sub (a b : row) : row :=
  map (fun p => fst p - snd p) (combine a b).
Definition row_div (a : row) (d : float) : row := map (fun x => x / d) a.

(** [np.gradient(f, axis=0)] with unit spacing: one-sided differences at
    the two ends, central differences inside; fewer than two rows is an
    error. *)
Definition gradient (f : list row) : result (list row) :=
  let n := List.length f in
  if Nat.ltb n 2 then Raise "ValueError"
  else
    let at_ i := nth i f [] in
    Ok (map (fun i =>
               if Nat.eqb i 0 then row_div (row_sub (at_ 1%nat) (at_ 0%nat)) one
               else if Nat.eqb i (n - 1)
               then row_div (row_sub (at_ (n - 1)%nat) (at_ (n - 2)%nat)) one
               else row_div (row_sub (at_ (i + 1)%nat) (at_ (i - 1)%nat))
                            (two * one))
            (seq 0 n)).

End Np.
(* ================================================================== *)
(** ** The test suite: [rnse_test_suite.py] *)

Module Suite.

Import Py F64 Np Json.
Local Open Scope string_scope.

(** *** Data classes *)

Record AuditMetadata := {
  test_name : string;
  timestamp : string;
  git_hash : string;
  seed : Z;
  particle_count : Z
}.

Record SimulationConfig := {
  n_particles : Z;
  scale : float;
  threads : Z;
  coupling : float;
  rng_seed : Z
}.

Record RotationCurveResult := {
  inner_radius : float;
  outer_radius : float;
  median_radius : float;
  inner_velocity : float;
  outer_velocity : float;
  velocity_drop_percent : float;
  inner_v_stddev : float;
  outer_v_stddev : float;
  total_particles : Z;
  mean_complexity : float;
  interpretation : string
}.

Definition default_seed : Z := 0x5EEDBEEFCAFE1234.

(** [AuditMetadata.to_dict]. *)
Definition metadata_to_dict (m : AuditMetadata) : json :=
  JDict [ ("test", JStr (test_name m));
          ("timestamp", JStr (timestamp m));
          ("git_hash", JStr (git_hash m));
          ("seed", JStr (hex (seed m)));
          ("particle_count", JInt (particle_count m)) ].

(** *** [MultiThreadRNSE] *)

(** One parsed line of the engine's log: [data["x"]] and [data["C"]]. *)
Record sample := { sample_x : float; sample_C : float }.

(** [range(n)]. *)
Definition range (n : Z) : list Z := map Z.of_nat (seq 0 (Z.to_nat n)).

(** [self.seeds]: one seed per dimension. *)
Definition seeds (config : SimulationConfig) : list Z :=
  map (fun i => (rng_seed config + i * 0x1000)%Z) (range (threads config)).

(** The guard of lines 143-145 on the peak of the trajectory. *)
Definition guarded_max (max_val : float) : float :=
  if (max_val <? eps)%f64 then one else max_val.

(** Lines 139-148: the accretion model on one dimension. *)
Definition accretion (scale : float) (dim_x : list float)
  : result (list float) :=
  let raw_signal := map (fun x => (x - half)%f64) dim_x in
  let trajectory := cumsum raw_signal in
  do max_val <- amax (map abs trajectory);
  let scale_factor := (scale / guarded_max max_val)%f64 in
  Ok (map (fun t => (t * scale_factor)%f64) trajectory).

Fixpoint for_each {A B} (f : A -> result B) (l : list A) : result (list B) :=
  match l with
  | [] => Ok []
  | a :: rest => do b <- f a; do bs <- for_each f rest; Ok (b :: bs)
  end.

(** Lines 196-202: the label of a velocity drop. *)
Definition interpret (velocity_drop : float) : string :=
  if (velocity_drop <? five)%f64 then "FLAT (matches Dark Matter signature)"
  else if (velocity_drop <? twenty)%f64 then "MILD DECLINE"
  else "STEEP DECLINE (Keplerian)".

Definition radii (coords : list row) : list float := map norm coords.

(** [np.isnan(coords).any()]. *)
Definition has_nan (coords : list row) : bool :=
  existsb (existsb is_nan) coords.
Definition inner_mask (r : list float) (median_r : float) : list bool :=
  map (fun x => (x <? median_r)%f64) r.
Definition outer_mask (r : list float) (median_r : float) : list bool :=
  map (fun x => (median_r <? x)%f64) r.

(** The particles exactly at the median, the specification's
    [ties_at_median]; the code builds no such mask. *)
Definition ties_mask (r : list float) (median_r : float) : list bool :=
  map (fun x => (x =? median_r)%f64) r.

(** [velocity_drop], line 194. *)
Definition velocity_drop (inner_v outer_v : float) : float :=
  if (zero <? inner_v)%f64
  then (hundred * (one - outer_v / inner_v))%f64
  else zero.

(** [analyze_rotation_curve]. *)
Definition analyze_rotation_curve (coords : list row) (mass : list float)
  : result RotationCurveResult :=
  let r := radii coords in
  do vel <- gradient coords;
  let v_mag := map (fun v => (norm v * ten)%f64) vel in
  let median_r := median r in
  let inner := inner_mask r median_r in
  let outer := outer_mask r median_r in
  let inner_v := mean (select inner v_mag) in
  let outer_v := mean (select outer v_mag) in
  let inner_v_std := std (select inner v_mag) in
  let outer_v_std := std (select outer v_mag) in
  let drop := velocity_drop inner_v outer_v in
  let interp := interpret drop in
  do inner_r <- amin (select inner r);
  do outer_r <- amax (select outer r);
  Ok {| inner_radius := inner_r;
        outer_radius := outer_r;
        median_radius := median_r;
        inner_velocity := inner_v;
        outer_velocity := outer_v;
        velocity_drop_percent := drop;
        inner_v_stddev := inner_v_std;
        outer_v_stddev := outer_v_std;
        total_particles := Z.of_nat (List.length coords);
        mean_complexity := mean mass;
        interpretation := interp |}.

(** *** [AuditLog] *)

Record AuditEntry := {
  entry_key : string;
  entry_value : json;
  entry_timestamp : string
}.

Record AuditLog := {
  metadata : AuditMetadata;
  entries : list AuditEntry;
  digest_sha256 : string
}.

Definition new_log (m : AuditMetadata) : AuditLog :=
  {| metadata := m; entries := []; digest_sha256 := "" |}.

Definition entry_to_dict (e : AuditEntry) : json :=
  JDict [ ("key", JStr (entry_key e));
          ("value", entry_value e);
          ("timestamp", JStr (entry_timestamp e)) ].

(** [add_result]; [now] is what [datetime.now().isoformat()] returns at
    the call. *)
Definition add_result (log : AuditLog) (key : string) (value : json)
           (now : string) : AuditLog :=
  {| metadata := metadata log;
     entries := entries log
                  ++ [ {| entry_key := key; entry_value := value;
                          entry_timestamp := now |} ];
     digest_sha256 := digest_sha256 log |}.

(** The record [finalize] serialises. *)
Definition audit_record (log : AuditLog) : json :=
  JDict [ ("metadata", metadata_to_dict (metadata log));
          ("entries", JList (map entry_to_dict (entries log))) ].

(** [blob], lines 242-248. *)
Definition blob (log : AuditLog) : string := dumps_indent2 (audit_record log).

(** [finalize]: the updated log and the returned digest. *)
Definition finalize (log : AuditLog) : AuditLog * string :=
  let digest := Sha256.hexdigest (Sha256.bytes_of_string (blob log)) in
  ({| metadata := metadata log; entries := entries log;
      digest_sha256 := digest |}, digest).

(** A call on a ledger, and a sequence of calls. *)
Inductive ledger_call : Type :=
| CallAdd (key : string) (value : json) (now : string)
| CallFinalize.

Definition call (log : AuditLog) (c : ledger_call) : AuditLog :=
  match c with
  | CallAdd key value now => add_result log key value now
  | CallFinalize => fst (finalize log)
  end.

Definition calls (log : AuditLog) (cs : list ledger_call) : AuditLog :=
  fold_left call cs log.

(** The entries that a sequence of calls adds, in call order. *)
Fixpoint added (cs : list ledger_call) : list AuditEntry :=
  match cs with
  | [] => []
  | CallAdd key value now :: rest =>
      {| entry_key := key; entry_value := value; entry_timestamp := now |}
        :: added rest
  | CallFinalize :: rest => added rest
  end.

(** What the specification asks to be digested instead. *)
Definition canonical_blob (log : AuditLog) : string :=
  dumps_canonical (audit_record log).

(** *** The parts that depend on the engine and on [float.__repr__] *)

Section Pipeline.

(** [rnse_core.rnse_run(seed, n, params)] followed by the parsing loop of
    lines 131-134; the engine is outside this module. *)
Variable rnse_run : Z -> Z -> result (list sample).

(** [float.__repr__], which [json] uses for finite floats. *)
Variable float_repr : float -> string.

(** [MultiThreadRNSE.run]. *)
Definition run (config : SimulationConfig)
  : result (list row * list float) :=
  do per_dim <-
     for_each (fun seed =>
                 do recs <- rnse_run seed (n_particles config);
                 do arr <- accretion (scale config) (map sample_x recs);
                 Ok (arr, map sample_C recs))
              (seeds config);
  do coords <- column_stack (map fst per_dim);
  Ok (coords, match per_dim with
              | (_, dim_c) :: _ => dim_c
              | [] => []
              end).

(** [json]'s [floatstr]. *)
Definition floatstr (o : float) : string :=
  match o with
  | S754_nan => "NaN"
  | S754_infinity false => "Infinity"
  | S754_infinity true => "-Infinity"
  | _ => float_repr o
  end.

Definition JNum (o : float) : json := JFloat (floatstr o).

(** [config.__dict__]. *)
Definition config_dict (c : SimulationConfig) : json :=
  JDict [ ("n_particles", JInt (n_particles c));
          ("scale", JNum (scale c));
          ("threads", JInt (threads c));
          ("coupling", JNum (coupling c));
          ("rng_seed", JInt (rng_seed c)) ].

(** [RotationCurveResult.to_dict]. *)
Definition result_to_dict (r : RotationCurveResult) : json :=
  JDict [ ("inner_radius", JNum (inner_radius r));
          ("outer_radius", JNum (outer_radius r));
          ("median_radius", JNum (median_radius r));
          ("inner_velocity", JNum (inner_velocity r));
          ("outer_velocity", JNum (outer_velocity r));
          ("velocity_drop_percent", JNum (velocity_drop_percent r));
          ("inner_v_stddev", JNum (inner_v_stddev r));
          ("outer_v_stddev", JNum (outer_v_stddev r));
          ("total_particles", JInt (total_particles r));
          ("mean_complexity", JNum (mean_complexity r));
          ("interpretation", JStr (interpretation r)) ].

End Pipeline.

(** *** [run_full_suite] *)

(** The audit trail of [run_full_suite] (lines 268-274, 285-286, 303):
    [clock k] is the reading of the [k]-th call of [datetime.now()]. *)
Definition audit_trail (clock : nat -> string) (config_json result_json : json)
  : AuditLog * string :=
  let metadata := {| test_name := "galaxy_formation_v0.74";
                     timestamp := clock 0%nat;
                     git_hash := "MANUAL_RUN";
                     seed := default_seed;
                     particle_count := 10000 |} in
  let audit := new_log metadata in
  let audit := add_result audit "simulation_config" config_json (clock 1%nat) in
  let audit := add_result audit "rotation_curve" result_json (clock 2%nat) in
  finalize audit.

(** What a run yields: the simulated structure, its analysis and the
    audit digest (captions and files are left out). *)
Record Run := {
  run_coords : list row;
  run_mass : list float;
  run_result : RotationCurveResult;
  run_metadata : AuditMetadata;
  run_digest : string
}.

Definition default_config : SimulationConfig :=
  {| n_particles := 10000; scale := hundred; threads := 3;
     coupling := one_twentieth; rng_seed := default_seed |}.

Definition run_full_suite (rnse_run : Z -> Z -> result (list sample))
           (float_repr : float -> string) (clock : nat -> string)
  : result Run :=
  let config := default_config in
  do cm <- run rnse_run config;
  do res <- analyze_rotation_curve (fst cm) (snd cm);
  let '(audit, digest) :=
    audit_trail clock (config_dict float_repr config)
                (result_to_dict float_repr res) in
  Ok {| run_coords := fst cm; run_mass := snd cm; run_result := res;
        run_metadata := metadata audit; run_digest := digest |}.

(** What the seed determines in a run: the structure and its analysis. *)
Definition outcome (r : result Run)
  : result (list row * list float * RotationCurveResult) :=
  do x <- r; Ok (run_coords x, run_mass x, run_result x).

End Suite.

(* ================================================================== *)
(** ** Inputs used in the examples below *)

Import Py F64 Np Json Suite.

(** A cloud with a NaN coordinate, one with a particle exactly at the
    median radius, and one with every particle at the same radius. *)
Definition cloud_with_nan : list row :=
  [ [nan; zero; zero]; [one; zero; zero] ].

Definition cloud_with_tie : list row :=
  [ [one; zero; zero]; [two; zero; zero]; [zero; two; zero];
    [zero; zero; five] ].

Definition cloud_all_at_median : list row :=
  [ [one; zero; zero]; [zero; one; zero]; [zero; zero; one] ].

(** Four particles at radii 1, 2, 4 and 8. *)
Definition cloud_four : list row :=
  [ [one; zero; zero]; [two; zero; zero]; [zero; of_Z 4; zero];
    [zero; zero; of_Z 8] ].

(** Two readings of the wall clock, for two runs five minutes apart. *)
Definition clock_a (k : nat) : string :=
  nth k [ "2026-01-22T10:00:00.000001"; "2026-01-22T10:00:03.250000";
          "2026-01-22T10:00:03.250417" ]%string ""%string.

Definition clock_b (k : nat) : string :=
  nth k [ "2026-01-22T10:05:00.000001"; "2026-01-22T10:05:03.250000";
          "2026-01-22T10:05:03.250417" ]%string ""%string.

(** [config.__dict__] of the default configuration and a result dict, with
    the floats as Python prints them. *)
Definition config_json : json :=
  JDict [ ("n_particles", JInt 10000); ("scale", JFloat "100.0");
          ("threads", JInt 3); ("coupling", JFloat "0.05");
          ("rng_seed", JInt default_seed) ]%string.

Definition result_json : json :=
  JDict [ ("inner_radius", JFloat "0.5"); ("outer_radius", JFloat "150.25");
          ("median_radius", JFloat "75.0"); ("inner_velocity", JFloat "2.5");
          ("outer_velocity", JFloat "2.25");
          ("velocity_drop_percent", JFloat "10.0");
          ("inner_v_stddev", JFloat "1.5"); ("outer_v_stddev", JFloat "1.25");
          ("total_particles", JInt 10000); ("mean_complexity", JFloat "0.5");
          ("interpretation", JStr "MILD DECLINE") ]%string.

(** A ledger with no entry and the entry appended to it below. *)
Definition ledger_metadata : AuditMetadata :=
  {| test_name := "galaxy_formation_v0.74";
     timestamp := "2026-01-22T10:00:00.000001";
     git_hash := "MANUAL_RUN";
     seed := default_seed;
     particle_count := 10000 |}.

Definition empty_ledger : AuditLog := new_log ledger_metadata.

(** An engine that returns two samples per call, one that returns as many
    samples as the seed is far from the default seed, and one that fails on
    the second seed. *)
Definition two_samples : list sample :=
  [ {| sample_x := one; sample_C := half |};
    {| sample_x := zero; sample_C := one |} ].

Definition engine_two (seed n : Z) : result (list sample) := Ok two_samples.

Definition engine_ragged (seed n : Z) : result (list sample) :=
  Ok (repeat {| sample_x := one; sample_C := half |}
             (S (Z.to_nat ((seed - default_seed) / 0x1000)))).

Definition engine_failing (seed n : Z) : result (list sample) :=
  if seed =? default_seed then Ok two_samples else Raise "RuntimeError".

(* ================================================================== *)
(** * Properties *)

(** ** Sanity checks of the embedding against known values *)

Example sha256_abc :
  Sha256.hexdigest (Sha256.bytes_of_string "abc")
  = "ba7816bf8f01cfea414140de5dae2223b00361a396177a9cb410ff61f20015ad"%string.
Proof. vm_compute. reflexivity. Qed.

Example sha256_empty :
  Sha256.hexdigest []
  = "e3b0c44298fc1c149afbf4c8996fb92427ae41e4649b934ca495991b7852b855"%string.
Proof. vm_compute. reflexivity. Qed.

Example sha256_two_blocks :
  Sha256.hexdigest (Sha256.bytes_of_string
     "abcdbcdecdefdefgefghfghighijhijkijkljklmklmnlmnomnopnopq")
  = "248d6a61d20638b8e5c026930c3e6039a33ce45964ff2167f6ecedd419db06c1"%string.
Proof. vm_compute. reflexivity. Qed.

(** [eps] is within half a unit in the last place of 10^-9. *)
Example eps_is_1e_9 :
  2 * Z.abs (4835703278458517 * 10 ^ 9 - 2 ^ 82) <= 10 ^ 9.
Proof. vm_compute. discriminate. Qed.

Example sha256_constants :
  nth 0 Sha256.round_constants 0 = 0x428a2f98
  /\ nth 63 Sha256.round_constants 0 = 0xc67178f2
  /\ nth 0 Sha256.initial_hash 0 = 0x6a09e667
  /\ nth 7 Sha256.initial_hash 0 = 0x5be0cd19.
Proof. repeat split. Qed.

Example hex_default_seed : hex default_seed = "0x5eedbeefcafe1234"%string.
Proof. vm_compute. reflexivity. Qed.

Example median_odd : median [one; five; two] = two.
Proof. vm_compute. reflexivity. Qed.

Example gradient_three_rows :
  gradient [[one]; [five]; [ten]]
  = Ok [[of_Z 4]; [(of_Z 9 / two)%f64]; [five]].
Proof. vm_compute. reflexivity. Qed.

(** ** Comparison of binary64 values *)

Section Compare.

Lemma SFcompare_antisym (x y : float) :
  SFcompare y x = option_map CompOpp (SFcompare x y).
Proof.
  destruct x as [sx | sx | | sx mx ex], y as [sy | sy | | sy my ey];
    simpl; try reflexivity;
    try (destruct sx; reflexivity); try (destruct sy; reflexivity);
    try (destruct sx, sy; reflexivity).
  pose proof (Pos.compare_cont_antisym mx my Eq) as Hm; simpl in Hm.
  destruct sx, sy; simpl; try reflexivity;
    rewrite (Z.compare_antisym ex ey);
    destruct (ex ?= ey)%Z; simpl; try reflexivity;
    rewrite <- Hm; try rewrite CompOpp_involutive; reflexivity.
Qed.

Lemma compare_defined (x y : float) :
  is_nan x = false -> is_nan y = false -> SFcompare x y <> None.
Proof.
  destruct x as [sx | sx | | sx mx ex], y as [sy | sy | | sy my ey];
    simpl; intros; try discriminate.
  all: destruct sx; discriminate.
Qed.

Lemma leb_not_gt (a b : float) : (a <=? b)%f64 = true -> (b <? a)%f64 = false.
Proof.
  unfold leb, ltb, SFleb, SFltb. rewrite (SFcompare_antisym a b).
  destruct (SFcompare a b) as [[ | | ] | ]; simpl; congruence.
Qed.

Lemma eqb_not_lt (a b : float) :
  (a =? b)%f64 = true -> (a <? b)%f64 = false /\ (b <? a)%f64 = false.
Proof.
  unfold eqb, ltb, SFeqb, SFltb. rewrite (SFcompare_antisym a b).
  destruct (SFcompare a b) as [[ | | ] | ]; simpl; intuition congruence.
Qed.

(** Two values that are not NaN are ordered in exactly one way. *)
Lemma trichotomy (x m : float) :
  is_nan x = false -> is_nan m = false ->
  (Nat.b2n (x <? m)%f64 + Nat.b2n (m <? x)%f64 + Nat.b2n (x =? m)%f64 = 1)%nat.
Proof.
  intros Hx Hm. pose proof (compare_defined x m Hx Hm) as Hc.
  unfold eqb, ltb, SFeqb, SFltb. rewrite (SFcompare_antisym x m).
  destruct (SFcompare x m) as [[ | | ] | ]; simpl; congruence.
Qed.

End Compare.

(** ** Masks and selections *)

Section Masks.

Context {A : Type}.

Lemma select_map (f : A -> bool) (l : list A) :
  select (map f l) l = filter f l.
Proof.
  unfold select. induction l as [ | a l IH]; simpl; [reflexivity | ].
  destruct (f a); simpl; rewrite IH; reflexivity.
Qed.

Lemma filter_three_way (f g h : A -> bool) (l : list A) :
  (forall x, In x l -> (Nat.b2n (f x) + Nat.b2n (g x) + Nat.b2n (h x) = 1)%nat) ->
  (List.length (filter f l) + List.length (filter g l)
   + List.length (filter h l) = List.length l)%nat.
Proof.
  induction l as [ | a l IH]; simpl; intros H; [reflexivity | ].
  assert (Ha := H a (or_introl eq_refl)).
  assert (IH' := IH (fun x Hx => H x (or_intror Hx))).
  destruct (f a), (g a), (h a); simpl in *; lia.
Qed.

End Masks.

(** ** The interpretation label *)

Lemma at_least_twenty_not_below_five (d : float) :
  (twenty <=? d)%f64 = true -> (d <? five)%f64 = false.
Proof.
  intros H. destruct d as [s | s | | s m e].
  1-3: try destruct s; vm_compute in H |- *; congruence.
  unfold leb, ltb, SFleb, SFltb, twenty, five, SFcompare in *.
  destruct s; [discriminate H | ].
  destruct (Z.compare_spec (-48) e) as [He | He | He];
    [ | | discriminate H].
  - assert (Hgt : (e ?= -50)%Z = Gt) by (apply Z.compare_gt_iff; lia).
    rewrite Hgt. reflexivity.
  - assert (Hgt : (e ?= -50)%Z = Gt) by (apply Z.compare_gt_iff; lia).
    rewrite Hgt. reflexivity.
Qed.

(** C6, as stated, fails: below 5.0 the label is not the bare word. *)
Lemma interpret_flat_label_counterexample :
  (zero <? five)%f64 = true /\ interpret zero <> "FLAT"%string.
Proof. split; [reflexivity | vm_compute; discriminate]. Qed.

(** C6 (amended).  The label of a velocity drop is
    "FLAT (matches Dark Matter signature)" when drop < 5.0, "MILD DECLINE"
    when 5.0 <= drop < 20.0 and "STEEP DECLINE (Keplerian)" when
    drop >= 20.0; a drop of exactly 5.0 is labelled "MILD DECLINE" and a drop
    of exactly 20.0 "STEEP DECLINE (Keplerian)". *)
Theorem interpret_thresholds (drop : float) :
  ((drop <? five)%f64 = true ->
   interpret drop = "FLAT (matches Dark Matter signature)"%string)
  /\ ((five <=? drop)%f64 = true -> (drop <? twenty)%f64 = true ->
      interpret drop = "MILD DECLINE"%string)
  /\ ((twenty <=? drop)%f64 = true ->
      interpret drop = "STEEP DECLINE (Keplerian)"%string)
  /\ interpret five = "MILD DECLINE"%string
  /\ interpret twenty = "STEEP DECLINE (Keplerian)"%string.
Proof.
  unfold interpret. repeat split.
  - intros ->. reflexivity.
  - intros H5 H20. rewrite (leb_not_gt _ _ H5), H20. reflexivity.
  - intros H20.
    rewrite (at_least_twenty_not_below_five _ H20), (leb_not_gt _ _ H20).
    reflexivity.
Qed.

Lemma interpret_thresholds_witness :
  interpret one = "FLAT (matches Dark Matter signature)"%string
  /\ interpret ten = "MILD DECLINE"%string
  /\ interpret hundred = "STEEP DECLINE (Keplerian)"%string.
Proof.
  split; [ | split].
  - exact (proj1 (interpret_thresholds one) eq_refl).
  - exact (proj1 (proj2 (interpret_thresholds ten)) eq_refl eq_refl).
  - exact (proj1 (proj2 (proj2 (interpret_thresholds hundred))) eq_refl).
Defined.

(** ** Values that cannot be NaN

    A square, a sum of squares, its root and the mean of one or two such
    roots are never NaN when the coordinates are not. *)

Section Rounding.

Variables prec emax : Z.

Lemma shr_1_nonneg (mrs : shr_record) :
  0 <= shr_m mrs -> 0 <= shr_m (shr_1 mrs).
Proof.
  destruct mrs as [m r s]. simpl.
  destruct m as [ | [p | p | ] | [p | p | ]]; simpl; lia.
Qed.

Lemma iter_shr_1_nonneg (p : positive) :
  forall mrs, 0 <= shr_m mrs -> 0 <= shr_m (iter_pos shr_1 p mrs).
Proof.
  induction p as [p IH | p IH | ]; intros mrs H; simpl.
  - apply IH, IH, shr_1_nonneg, H.
  - apply IH, IH, H.
  - apply shr_1_nonneg, H.
Qed.

Lemma shr_fexp_nonneg (m e : Z) (l : location) :
  0 <= m -> 0 <= shr_m (fst (shr_fexp prec emax m e l)).
Proof.
  intros H. unfold shr_fexp, shr.
  assert (H0 : 0 <= shr_m (shr_record_of_loc m l))
    by (destruct l as [ | [ | | ]]; exact H).
  destruct (fexp prec emax (Zdigits2 m + e) - e) as [ | p | p]; simpl;
    auto using iter_shr_1_nonneg.
Qed.

Lemma round_nearest_even_nonneg (m : Z) (l : location) :
  0 <= m -> 0 <= round_nearest_even m l.
Proof.
  intros H. destruct l as [ | [ | | ]]; simpl; try lia.
  destruct (Z.even m); lia.
Qed.

Lemma binary_round_aux_nonneg (m e : Z) (l : location) :
  0 <= m -> nonneg (binary_round_aux prec emax false m e l) = true.
Proof.
  intros H. unfold binary_round_aux.
  pose proof (shr_fexp_nonneg m e l H) as H1.
  destruct (shr_fexp prec emax m e l) as [mrs' e']. simpl fst in H1.
  pose proof (shr_fexp_nonneg _ e' loc_Exact
                (round_nearest_even_nonneg _ (loc_of_shr_record mrs') H1))
    as H2.
  destruct (shr_fexp prec emax _ e' loc_Exact) as [mrs'' e''].
  simpl fst in H2.
  destruct (shr_m mrs'') as [ | q | q]; [reflexivity | | lia].
  destruct (e'' <=? emax - prec); reflexivity.
Qed.

Lemma binary_round_nonneg (m : positive) (e : Z) :
  nonneg (binary_round prec emax false m e) = true.
Proof.
  unfold binary_round. destruct (shl_align m e _) as [mz ez].
  apply binary_round_aux_nonneg. lia.
Qed.

End Rounding.

Section NoNaN.

Local Open Scope f64_scope.

Lemma nonneg_not_nan (x : float) : nonneg x = true -> is_nan x = false.
Proof. destruct x; simpl; congruence. Qed.

Lemma square_nonneg (x : float) : is_nan x = false -> nonneg (x * x) = true.
Proof.
  destruct x as [s | s | | s m e]; simpl; intros H; try discriminate.
  1-2: destruct s; reflexivity.
  unfold mul, SFmul. replace (xorb s s) with false by (destruct s; reflexivity).
  apply binary_round_aux_nonneg. lia.
Qed.

Lemma add_nonneg (x y : float) :
  nonneg x = true -> nonneg y = true -> nonneg (x + y) = true.
Proof.
  destruct x as [sx | [ | ] | | [ | ] mx ex], y as [sy | [ | ] | | [ | ] my ey];
    simpl; intros Hx Hy; try discriminate; try reflexivity.
  - destruct sx, sy; reflexivity.
  - unfold add, SFadd, binary_normalize. simpl cond_Zopp.
    apply binary_round_nonneg.
Qed.

Lemma sum_from_nonneg (l : list float) :
  forall acc, nonneg acc = true -> Forall (fun x => nonneg x = true) l ->
              nonneg (fold_left add l acc) = true.
Proof.
  induction l as [ | x l IH]; intros acc Hacc Hl; simpl; [exact Hacc | ].
  inversion Hl; subst. apply IH; auto using add_nonneg.
Qed.

Lemma sqrt_nonneg (x : float) : nonneg x = true -> nonneg (sqrt x) = true.
Proof.
  destruct x as [s | [ | ] | | [ | ] m e]; simpl; intros H;
    try discriminate; try reflexivity.
  unfold sqrt, SFsqrt, SFsqrt_core_binary. cbv zeta.
  match goal with
  | |- context [Z.sqrtrem ?a] =>
      pose proof (Z.sqrtrem_sqrt a) as Hq; pose proof (Z.sqrt_nonneg a) as Hs;
      destruct (Z.sqrtrem a) as [q r]
  end.
  simpl in Hq. subst q. apply binary_round_aux_nonneg, Hs.
Qed.

(** Division by a positive finite constant. *)
Lemma div_nonneg (x : float) (mc : positive) (ec : Z) :
  nonneg x = true -> nonneg (x / S754_finite false mc ec) = true.
Proof.
  destruct x as [s | [ | ] | | [ | ] m e]; simpl; intros H;
    try discriminate; try reflexivity.
  unfold div, SFdiv, SFdiv_core_binary. cbv zeta.
  match goal with
  | |- context [Z.div_eucl ?a ?b] =>
      assert (Ha : 0 <= a)
        by (match goal with
            | |- 0 <= match ?k with _ => _ end =>
                destruct k; try lia; apply Z.shiftl_nonneg; lia
            end);
      pose proof (Z.div_pos a b Ha (Pos2Z.is_pos mc)) as Hq;
      unfold Z.div in Hq; destruct (Z.div_eucl a b) as [q r]
  end.
  apply binary_round_aux_nonneg, Hq.
Qed.

Lemma norm_nonneg (v : row) :
  (forall x, In x v -> is_nan x = false) -> nonneg (norm v) = true.
Proof.
  intros H. unfold norm, sum. apply sqrt_nonneg, sum_from_nonneg;
    [reflexivity | ].
  apply Forall_forall. intros y Hy. apply in_map_iff in Hy.
  destruct Hy as [x [<- Hx]]. apply square_nonneg, H, Hx.
Qed.

Lemma insert_Forall (P : float -> Prop) (x : float) (l : list float) :
  P x -> Forall P l -> Forall P (insert x l).
Proof.
  intros Hx Hl. induction Hl as [ | y l Hy Hl IH]; simpl.
  - constructor; [exact Hx | constructor].
  - destruct (x <=? y); repeat constructor; auto.
Qed.

Lemma sort_Forall (P : float -> Prop) (l : list float) :
  Forall P l -> Forall P (sort l).
Proof.
  unfold sort. induction 1 as [ | x l Hx Hl IH]; simpl;
    [constructor | apply insert_Forall; assumption].
Qed.

Lemma insert_length (x : float) (l : list float) :
  List.length (insert x l) = S (List.length l).
Proof.
  induction l as [ | y l IH]; simpl; [reflexivity | ].
  destruct (x <=? y); simpl; [reflexivity | now rewrite IH].
Qed.

Lemma sort_length (l : list float) : List.length (sort l) = List.length l.
Proof.
  unfold sort. induction l as [ | x l IH]; simpl; [reflexivity | ].
  now rewrite insert_length, IH.
Qed.

Lemma nth_sort_nonneg (l : list float) (i : nat) :
  Forall (fun x => nonneg x = true) l -> (i < List.length l)%nat ->
  nonneg (nth i (sort l) nan) = true.
Proof.
  intros Hl Hi. apply sort_Forall in Hl.
  rewrite Forall_forall in Hl. apply Hl, nth_In. now rewrite sort_length.
Qed.

Lemma no_nan_among_nonneg (l : list float) :
  Forall (fun x => nonneg x = true) l -> existsb is_nan l = false.
Proof.
  induction 1 as [ | x l Hx Hl IH]; simpl; [reflexivity | ].
  now rewrite (nonneg_not_nan x Hx), IH.
Qed.

Lemma div2_lt (n : nat) : (0 < n)%nat -> (Nat.div2 n < n)%nat.
Proof. intros H. apply Nat.lt_div2, H. Qed.

Lemma mean_one_nonneg (a : float) :
  nonneg a = true -> nonneg (mean [a]) = true.
Proof.
  intros Ha. unfold mean, sum. cbn [fold_left].
  replace (of_Z (Z.of_nat (List.length [a]))) with one
    by (vm_compute; reflexivity).
  apply div_nonneg, add_nonneg; [reflexivity | exact Ha].
Qed.

Lemma mean_two_nonneg (a b : float) :
  nonneg a = true -> nonneg b = true -> nonneg (mean [a; b]) = true.
Proof.
  intros Ha Hb. unfold mean, sum. cbn [fold_left].
  replace (of_Z (Z.of_nat (List.length [a; b]))) with two
    by (vm_compute; reflexivity).
  apply div_nonneg, add_nonneg; [apply add_nonneg; [reflexivity | exact Ha] | ].
  exact Hb.
Qed.

(** The median of a non-empty array of non-negative values is not NaN. *)
Lemma median_nonneg (l : list float) :
  l <> [] -> Forall (fun x => nonneg x = true) l -> nonneg (median l) = true.
Proof.
  intros Hne Hl. unfold median. rewrite (no_nan_among_nonneg l Hl).
  destruct (List.length l) as [ | n] eqn:Hn.
  { destruct l; [congruence | discriminate Hn]. }
  rewrite <- Hn.
  assert (Hhalf : (Nat.div2 (List.length l) < List.length l)%nat)
    by (apply div2_lt; lia).
  destruct (Nat.odd (List.length l)).
  - apply mean_one_nonneg, nth_sort_nonneg; assumption.
  - apply mean_two_nonneg; apply nth_sort_nonneg; try assumption; lia.
Qed.

Lemma radii_nonneg (coords : list row) :
  (forall v x, In v coords -> In x v -> is_nan x = false) ->
  Forall (fun x => nonneg x = true) (radii coords).
Proof.
  intros H. apply Forall_forall. intros y Hy. unfold radii in Hy.
  apply in_map_iff in Hy. destruct Hy as [v [<- Hv]].
  apply norm_nonneg. intros x Hx. exact (H v x Hv Hx).
Qed.

Lemma has_nan_false (coords : list row) :
  has_nan coords = false ->
  forall v x, In v coords -> In x v -> is_nan x = false.
Proof.
  unfold has_nan. intros H v x Hv Hx.
  destruct (is_nan x) eqn:Hnan; [ | reflexivity].
  assert (Hex : existsb (existsb is_nan) coords = true).
  { apply existsb_exists. exists v. split; [exact Hv | ].
    apply existsb_exists. exists x. split; assumption. }
  congruence.
Qed.

End NoNaN.

(** ** The radius partition *)

(** C7, as stated, fails on a cloud with a NaN coordinate: the median is
    NaN, every comparison is false, and the three counts add up to 0. *)
Lemma partition_nan_counterexample :
  let r := radii cloud_with_nan in
  let m := median r in
  (List.length (select (inner_mask r m) r)
   + List.length (select (outer_mask r m) r)
   + List.length (select (ties_mask r m) r))%nat
  <> List.length cloud_with_nan.
Proof. vm_compute. discriminate. Qed.

(** C7 (amended).  For every point cloud with no NaN coordinate, the
    partition is by strict inequalities around the median, a particle exactly
    at the median is in neither population, and the sizes of inner, outer and
    ties add up to the particle count. *)
Theorem partition_complete (coords : list row) :
  has_nan coords = false ->
  let r := radii coords in
  let m := median r in
  select (inner_mask r m) r = filter (fun x => (x <? m)%f64) r
  /\ select (outer_mask r m) r = filter (fun x => (m <? x)%f64) r
  /\ (forall x, (x =? m)%f64 = true ->
                (x <? m)%f64 = false /\ (m <? x)%f64 = false)
  /\ (List.length (select (inner_mask r m) r)
      + List.length (select (outer_mask r m) r)
      + List.length (select (ties_mask r m) r))%nat
     = List.length coords.
Proof.
  intros Hc r m.
  unfold inner_mask, outer_mask, ties_mask. rewrite !select_map.
  split; [reflexivity | split; [reflexivity | split]].
  - intros x Hx. apply eqb_not_lt. exact Hx.
  - destruct coords as [ | v coords']; [reflexivity | ].
    pose proof (radii_nonneg _ (has_nan_false _ Hc)) as Hr. fold r in Hr.
    assert (Hm : nonneg m = true)
      by (apply median_nonneg; [discriminate | exact Hr]).
    rewrite filter_three_way.
    + unfold r, radii. apply length_map.
    + intros x Hx. rewrite Forall_forall in Hr.
      apply trichotomy; apply nonneg_not_nan; auto.
Qed.

Lemma partition_complete_witness :
  (List.length (select (inner_mask (radii cloud_with_tie)
                                   (median (radii cloud_with_tie)))
                       (radii cloud_with_tie))
   + List.length (select (outer_mask (radii cloud_with_tie)
                                     (median (radii cloud_with_tie)))
                         (radii cloud_with_tie))
   + List.length (select (ties_mask (radii cloud_with_tie)
                                    (median (radii cloud_with_tie)))
                         (radii cloud_with_tie)))%nat
  = 4%nat.
Proof.
  refine (proj2 (proj2 (proj2 (partition_complete cloud_with_tie _)))).
  reflexivity.
Defined.

(** ** Failures of the analysis *)

(** C3, as stated, fails: with every particle at the median radius both
    partitions are empty and the exception raised is NumPy's [ValueError]. *)
Lemma analyze_empty_partition_counterexample :
  select (inner_mask (radii cloud_all_at_median)
                     (median (radii cloud_all_at_median)))
         (radii cloud_all_at_median) = []
  /\ analyze_rotation_curve cloud_all_at_median [one; one; one]
     <> Raise "InsufficientDataError".
Proof. split; vm_compute; [reflexivity | discriminate]. Qed.

(** C3 (amended).  For every analysis input whose inner or outer partition
    is empty, or that has fewer than 2 particles, the rotation-curve analysis
    raises [ValueError] and returns no result. *)
Theorem analyze_empty_partition_raises (coords : list row) (mass : list float) :
  let r := radii coords in
  let m := median r in
  (List.length coords < 2)%nat
  \/ select (inner_mask r m) r = []
  \/ select (outer_mask r m) r = [] ->
  analyze_rotation_curve coords mass = Raise "ValueError".
Proof.
  intros r m H. unfold analyze_rotation_curve, gradient.
  destruct (Nat.ltb_spec (List.length coords) 2) as [Hlt | Hge];
    [reflexivity | ].
  cbn [bind]. fold r. fold m.
  destruct H as [H | [H | H]]; [lia | rewrite H; reflexivity | ].
  rewrite H. destruct (select (inner_mask r m) r); reflexivity.
Qed.

Lemma analyze_empty_partition_raises_witness :
  analyze_rotation_curve cloud_all_at_median [one; one; one]
  = Raise "ValueError".
Proof.
  apply analyze_empty_partition_raises.
  right. left. vm_compute. reflexivity.
Defined.

(** ** Assembling the point cloud *)

(** C4, as stated, fails: the exception of [np.column_stack] on sequences of
    different lengths is [ValueError]. *)
Lemma column_stack_mismatch_counterexample :
  column_stack [ [one]; [one; two]; [one] ] <> Raise "ShapeMismatchError".
Proof. vm_compute. discriminate. Qed.

(** [np.column_stack] on three sequences: an error exactly when the lengths
    disagree. *)
Lemma column_stack_three (x y z : list float) :
  column_stack [x; y; z]
  = if Nat.eqb (List.length y) (List.length x)
       && Nat.eqb (List.length z) (List.length x)
    then Ok (map (fun i => map (fun col => nth i col nan) [x; y; z])
                 (seq 0 (List.length x)))
    else Raise "ValueError".
Proof. unfold column_stack. cbn [forallb]. now rewrite andb_true_r. Qed.

(** C4 (amended).  Assembling the point cloud from three per-axis coordinate
    sequences fails with [ValueError] whenever the three sequences differ in
    length. *)
Theorem column_stack_mismatch_raises (x y z : list float) :
  ~ (List.length x = List.length y /\ List.length y = List.length z) ->
  column_stack [x; y; z] = Raise "ValueError".
Proof.
  intros H. rewrite column_stack_three.
  destruct (Nat.eqb_spec (List.length y) (List.length x)) as [Hy | Hy];
    [ | reflexivity].
  destruct (Nat.eqb_spec (List.length z) (List.length x)) as [Hz | Hz];
    [ | reflexivity].
  exfalso. apply H. split; congruence.
Qed.

Lemma column_stack_mismatch_raises_witness :
  column_stack [ [one]; [one; two]; [one] ] = Raise "ValueError".
Proof.
  apply column_stack_mismatch_raises. simpl. intros [H _]. discriminate H.
Defined.

(** When the lengths agree the cloud has one row per particle. *)
Lemma column_stack_equal_lengths (x y z : list float) :
  List.length x = List.length y -> List.length y = List.length z ->
  exists rows, column_stack [x; y; z] = Ok rows
               /\ List.length rows = List.length x.
Proof.
  intros Hxy Hyz. unfold column_stack. cbn [forallb].
  rewrite <- Hxy, Nat.eqb_refl. rewrite <- Hyz, <- Hxy, Nat.eqb_refl.
  eexists. split; [reflexivity | ]. rewrite length_map, length_seq.
  reflexivity.
Qed.

(** The accretion model keeps the length of a sequence and fails only on
    an empty one. *)
Lemma cumsum_from_length (l : list float) :
  forall acc, List.length (cumsum_from acc l) = List.length l.
Proof. induction l as [ | x l IH]; intros acc; simpl; [ | rewrite IH]; reflexivity. Qed.

Lemma cumsum_length (l : list float) : List.length (cumsum l) = List.length l.
Proof. destruct l; simpl; [ | rewrite cumsum_from_length]; reflexivity. Qed.

Lemma accretion_cases (scale : float) (dim_x : list float) :
  (dim_x = [] /\ accretion scale dim_x = Raise "ValueError")
  \/ (exists arr, accretion scale dim_x = Ok arr
                  /\ List.length arr = List.length dim_x).
Proof.
  destruct dim_x as [ | x l]; [left; split; reflexivity | right].
  unfold accretion. cbn [map cumsum amax bind].
  eexists. split; [reflexivity | ].
  cbn [map List.length]. now rewrite length_map, cumsum_from_length, length_map.
Qed.

(** In [run]: when the engine returns three sequences that differ in
    length, the simulation fails with [ValueError]. *)
Lemma run_length_mismatch_raises
      (rnse_run : Z -> Z -> result (list sample)) (config : SimulationConfig)
      (recs0 recs1 recs2 : list sample) :
  threads config = 3 ->
  rnse_run (rng_seed config) (n_particles config) = Ok recs0 ->
  rnse_run (rng_seed config + 0x1000) (n_particles config) = Ok recs1 ->
  rnse_run (rng_seed config + 0x2000) (n_particles config) = Ok recs2 ->
  ~ (List.length recs0 = List.length recs1
     /\ List.length recs1 = List.length recs2) ->
  run rnse_run config = Raise "ValueError".
Proof.
  intros Ht H0 H1 H2 Hlen. unfold run, seeds. rewrite Ht.
  change (range 3) with [0; 1; 2]. cbn [map for_each].
  change (0 * 0x1000) with 0. change (1 * 0x1000) with 0x1000.
  change (2 * 0x1000) with 0x2000.
  rewrite Z.add_0_r, H0, H1, H2. cbn [bind].
  destruct (accretion_cases (scale config) (map sample_x recs0))
    as [[_ ->] | [a0 [-> L0]]]; [reflexivity | ].
  destruct (accretion_cases (scale config) (map sample_x recs1))
    as [[_ ->] | [a1 [-> L1]]]; [reflexivity | ].
  destruct (accretion_cases (scale config) (map sample_x recs2))
    as [[_ ->] | [a2 [-> L2]]]; [reflexivity | ].
  cbn [bind map fst]. rewrite column_stack_three.
  rewrite length_map in L0, L1, L2.
  destruct (Nat.eqb_spec (List.length a1) (List.length a0)) as [E1 | E1];
    [ | reflexivity].
  destruct (Nat.eqb_spec (List.length a2) (List.length a0)) as [E2 | E2];
    [ | reflexivity].
  exfalso. apply Hlen. split; congruence.
Qed.

(** ** The degenerate axis *)

(** C9.  For every axis sequence whose peak cumulative magnitude is below
    1e-9, the accretion transform divides by 1.0 instead of the peak, so no
    division by zero occurs, and it returns the trajectory scaled by
    [scale / 1.0] instead of raising. *)
Theorem accretion_degenerate_axis (scale : float) (dim_x : list float)
        (peak : float) :
  let trajectory := cumsum (map (fun x => (x - half)%f64) dim_x) in
  amax (map abs trajectory) = Ok peak ->
  (peak <? eps)%f64 = true ->
  guarded_max peak = one
  /\ (one =? zero)%f64 = false
  /\ accretion scale dim_x
     = Ok (map (fun t => (t * (scale / one))%f64) trajectory).
Proof.
  intros trajectory Hpeak Hlt. unfold guarded_max. rewrite Hlt.
  split; [reflexivity | split; [reflexivity | ]].
  unfold accretion. fold trajectory. rewrite Hpeak. cbn [bind].
  unfold guarded_max. rewrite Hlt. reflexivity.
Qed.

Lemma accretion_degenerate_axis_witness :
  accretion hundred [half; half; half]
  = Ok (map (fun t => (t * (hundred / one))%f64)
            (cumsum (map (fun x => (x - half)%f64) [half; half; half]))).
Proof.
  refine (proj2 (proj2 (accretion_degenerate_axis hundred [half; half; half]
                                                  zero _ _)));
    vm_compute; reflexivity.
Defined.

(** The degenerate axis above is all zeros. *)
Example accretion_constant_half :
  accretion hundred [half; half; half] = Ok [zero; zero; zero].
Proof. vm_compute. reflexivity. Qed.

(** A non-degenerate axis at scale 100.0, for comparison. *)
Example accretion_small_walk :
  accretion hundred [one; zero; zero; one; one]
  = Ok [hundred; zero; S754_finite true 7036874417766400 (-46); zero; hundred].
Proof. vm_compute. reflexivity. Qed.

(** A walk whose peak, 1.15, is not a power of two, with the coordinates
    Python computes for it. *)
Example accretion_inexact_walk :
  accretion hundred
            [ (of_Z 8 / ten)%f64; (of_Z 9 / ten)%f64; (of_Z 19 / twenty)%f64;
              (of_Z 3 / ten)%f64 ]
  = Ok [ S754_finite false 7342825479408419 (-48);
         S754_finite false 8566629725976488 (-47);
         hundred;
         S754_finite false 5813070171198330 (-46) ].
Proof. vm_compute. reflexivity. Qed.

(** ** The weight vector *)

(** A successful analysis: only [mean_complexity] follows the weights. *)
Example analyze_cloud_four :
  match analyze_rotation_curve cloud_four [one; one; one; one],
        analyze_rotation_curve cloud_four [one; two; two; five] with
  | Ok a, Ok b =>
      median_radius a = of_Z 3 /\ inner_radius a = one
      /\ outer_radius a = of_Z 8 /\ total_particles a = 4
      /\ interpretation a = "FLAT (matches Dark Matter signature)"%string
      /\ mean_complexity a = one
      /\ mean_complexity b = (five / two)%f64
  | _, _ => False
  end.
Proof. vm_compute. repeat split. Qed.


(** ** Strings *)

Section Strings.

Local Open Scope string_scope.


Lemma append_assoc (a b c : string) : (a ++ b) ++ c = a ++ (b ++ c).
Proof. induction a as [ | x a IH]; simpl; [reflexivity | now rewrite IH]. Qed.


End Strings.

(** ** The audit ledger *)



(** [finalize] reads the metadata and the entries and changes neither. *)
Lemma finalize_keeps_record (log : AuditLog) :
  metadata (fst (finalize log)) = metadata log
  /\ entries (fst (finalize log)) = entries log
  /\ digest_sha256 (fst (finalize log)) = snd (finalize log).
Proof. repeat split. Qed.



(** The digest of the one-entry ledger, as Python computes it. *)
Example finalize_one_entry :
  snd (finalize (add_result empty_ledger "total_particles" (JInt 10000)
                            "2026-01-22T10:00:03.250000"))
  = "98bf92194c9acb59eb53067401e6a3a9dc328afa0e88498522a3bc2b86c12b88"%string.
Proof. vm_compute. reflexivity. Qed.

(** The shape of the serialisation that [finalize] digests. *)
Lemma blob_shape (log : AuditLog) :
  dumps_indent2 (audit_record log)
  = ("{" ++ newline_indent 1
         ++ encode_str "metadata" ++ ": "
         ++ iterencode 1 (metadata_to_dict (metadata log))
         ++ "," ++ newline_indent 1
         ++ encode_str "entries" ++ ": "
         ++ iterencode 1 (JList (map entry_to_dict (entries log)))
         ++ newline_indent 0 ++ "}")%string.
Proof.
  unfold dumps_indent2, audit_record.
  set (md := metadata_to_dict (metadata log)).
  set (es := JList (map entry_to_dict (entries log))).
  change (iterencode 0 (JDict [("metadata"%string, md);
                               ("entries"%string, es)]))
    with ("{" ++ newline_indent 1
              ++ join ("," ++ newline_indent 1)
                      [ encode_str "metadata" ++ ": " ++ iterencode 1 md;
                        encode_str "entries" ++ ": " ++ iterencode 1 es ]
              ++ newline_indent 0 ++ "}")%string.
  cbn [join]. now rewrite !append_assoc.
Qed.

Lemma metadata_shape (m : AuditMetadata) :
  iterencode 1 (metadata_to_dict m)
  = ("{" ++ newline_indent 2
         ++ encode_str "test" ++ ": " ++ encode_str (test_name m)
         ++ "," ++ newline_indent 2
         ++ encode_str "timestamp" ++ ": " ++ encode_str (timestamp m)
         ++ "," ++ newline_indent 2
         ++ encode_str "git_hash" ++ ": " ++ encode_str (git_hash m)
         ++ "," ++ newline_indent 2
         ++ encode_str "seed" ++ ": " ++ encode_str (hex (seed m))
         ++ "," ++ newline_indent 2
         ++ encode_str "particle_count" ++ ": "
         ++ repr_int (particle_count m)
         ++ newline_indent 1 ++ "}")%string.
Proof.
  unfold metadata_to_dict.
  cbn [iterencode map join fst snd]. now rewrite !append_assoc.
Qed.

(** C1, as stated, fails: the digest of a ledger is not the digest of its
    canonical (compact, sorted) serialisation. *)
Lemma finalize_not_canonical_counterexample :
  snd (finalize empty_ledger)
  <> Sha256.hexdigest (Sha256.bytes_of_string (canonical_blob empty_ledger)).
Proof. vm_compute. discriminate. Qed.

(** C1 (amended).  [finalize] computes its SHA-256 digest over the indented
    ([indent=2]) JSON serialisation of the {metadata, entries} record, keys
    in insertion order (metadata before entries; test, timestamp, git_hash,
    seed, particle_count); its second character is a line break and it is
    never the compact canonical form. *)
Theorem finalize_digests_indented_form (log : AuditLog) :
  snd (finalize log)
  = Sha256.hexdigest
      (Sha256.bytes_of_string (dumps_indent2 (audit_record log)))
  /\ dumps_indent2 (audit_record log)
     = ("{" ++ newline_indent 1
            ++ encode_str "metadata" ++ ": "
            ++ iterencode 1 (metadata_to_dict (metadata log))
            ++ "," ++ newline_indent 1
            ++ encode_str "entries" ++ ": "
            ++ iterencode 1 (JList (map entry_to_dict (entries log)))
            ++ newline_indent 0 ++ "}")%string
  /\ iterencode 1 (metadata_to_dict (metadata log))
     = ("{" ++ newline_indent 2
            ++ encode_str "test" ++ ": "
            ++ encode_str (test_name (metadata log))
            ++ "," ++ newline_indent 2
            ++ encode_str "timestamp" ++ ": "
            ++ encode_str (timestamp (metadata log))
            ++ "," ++ newline_indent 2
            ++ encode_str "git_hash" ++ ": "
            ++ encode_str (git_hash (metadata log))
            ++ "," ++ newline_indent 2
            ++ encode_str "seed" ++ ": "
            ++ encode_str (hex (seed (metadata log)))
            ++ "," ++ newline_indent 2
            ++ encode_str "particle_count" ++ ": "
            ++ repr_int (particle_count (metadata log))
            ++ newline_indent 1 ++ "}")%string
  /\ String.get 1 (dumps_indent2 (audit_record log)) = Some newline
  /\ dumps_indent2 (audit_record log) <> canonical_blob log.
Proof.
  split; [reflexivity | ].
  split; [apply blob_shape | split; [apply metadata_shape | split]].
  - rewrite blob_shape. reflexivity.
  - rewrite blob_shape. unfold canonical_blob, audit_record.
    cbn. discriminate.
Qed.

(** ** Two runs of the suite *)

(** The default configuration as [json] sees it, given how Python prints
    its two floats. *)
Lemma config_dict_default (float_repr : float -> string) :
  float_repr hundred = "100.0"%string ->
  float_repr one_twentieth = "0.05"%string ->
  config_dict float_repr default_config = config_json.
Proof.
  intros H100 H005. unfold config_dict, config_json, JNum, floatstr.
  cbn. rewrite H100, H005. reflexivity.
Qed.

(** The serialisations digested by two runs started at [clock_a] and at
    [clock_b] differ, whatever the simulation produced. *)
Lemma audit_blob_depends_on_clock (cfg res : json) :
  blob (fst (audit_trail clock_a cfg res))
  <> blob (fst (audit_trail clock_b cfg res)).
Proof.
  unfold blob. rewrite !blob_shape, !metadata_shape. cbn. discriminate.
Qed.

(** C2 on the code: the structure and the analysis of a run do not depend
    on the wall clock, but the digest is taken over a record that holds the
    clock readings, and two runs at different times return different
    digests. *)
Theorem run_full_suite_digest_depends_on_clock :
  (forall rnse_run float_repr clock1 clock2,
      outcome (run_full_suite rnse_run float_repr clock1)
      = outcome (run_full_suite rnse_run float_repr clock2))
  /\ (forall rnse_run float_repr clock,
         match run_full_suite rnse_run float_repr clock with
         | Ok x =>
             run_digest x
             = snd (audit_trail clock (config_dict float_repr default_config)
                                (result_to_dict float_repr (run_result x)))
             /\ timestamp (run_metadata x) = clock 0%nat
         | Raise _ => True
         end)
  /\ (forall cfg res,
         blob (fst (audit_trail clock_a cfg res))
         <> blob (fst (audit_trail clock_b cfg res)))
  /\ snd (audit_trail clock_a config_json result_json)
     = "3741312241f70e9e9ecba52c000d14563dee759c656fac9f9bf716cf74bd0791"%string
  /\ snd (audit_trail clock_b config_json result_json)
     = "4c0ca95db5a257d40df14241692d1cee78274bb2443f18308de728b1c3202182"%string.
Proof.
  split; [ | split; [ | split; [ | split]]].
  - intros rnse_run float_repr clock1 clock2.
    unfold run_full_suite, outcome.
    destruct (run rnse_run default_config) as [cm | c]; cbn [bind];
      [ | reflexivity].
    destruct (analyze_rotation_curve (fst cm) (snd cm)) as [res | c];
      cbn [bind]; reflexivity.
  - intros rnse_run float_repr clock. unfold run_full_suite.
    destruct (run rnse_run default_config) as [cm | c]; cbn [bind];
      [ | exact I].
    destruct (analyze_rotation_curve (fst cm) (snd cm)) as [res | c];
      cbn [bind]; [ | exact I].
    split; reflexivity.
  - exact audit_blob_depends_on_clock.
  - vm_compute. reflexivity.
  - vm_compute. reflexivity.
Qed.

(* ================================================================== *)
(** * Further properties of the code *)

(** ** Seeds *)

Lemma seeds_nth (config : SimulationConfig) (i : nat) :
  (i < Z.to_nat (threads config))%nat ->
  nth i (seeds config) 0 = rng_seed config + Z.of_nat i * 0x1000.
Proof.
  intros Hi. unfold seeds, range.
  rewrite (nth_indep _ 0 (rng_seed config + Z.of_nat 0 * 0x1000))
    by now rewrite !length_map, length_seq.
  rewrite map_map.
  rewrite (map_nth (fun n => rng_seed config + Z.of_nat n * 4096)).
  now rewrite seq_nth.
Qed.

(** X1.  The per-dimension seeds of a simulation are pairwise distinct,
    there is one per thread, and the [i]-th is [rng_seed + i * 0x1000]. *)
Theorem seeds_distinct (config : SimulationConfig) :
  NoDup (seeds config)
  /\ List.length (seeds config) = Z.to_nat (threads config)
  /\ forall i, (i < Z.to_nat (threads config))%nat ->
               nth i (seeds config) 0
               = rng_seed config + Z.of_nat i * 0x1000.
Proof.
  split; [ | split].
  - unfold seeds, range.
    apply Injective_map_NoDup; [intros a b H; lia | ].
    apply Injective_map_NoDup; [exact Nat2Z.inj | apply seq_NoDup].
  - unfold seeds, range. now rewrite !length_map, length_seq.
  - apply seeds_nth.
Qed.

(** ** The accretion model *)

(** X2.  The accretion model fails, with [ValueError], exactly on an empty
    sequence of samples; otherwise it returns one coordinate per sample. *)
Theorem accretion_length (scale : float) (dim_x : list float) :
  (dim_x = [] -> accretion scale dim_x = Raise "ValueError")
  /\ (dim_x <> [] ->
      exists arr, accretion scale dim_x = Ok arr
                  /\ List.length arr = List.length dim_x).
Proof.
  destruct (accretion_cases scale dim_x) as [[E H] | H].
  - split; [intros _; exact H | congruence].
  - split; [ | intros _; exact H].
    intros ->. destruct H as [arr [H _]]. discriminate H.
Qed.

Lemma accretion_length_witness :
  accretion hundred [] = Raise "ValueError"
  /\ exists arr, accretion hundred [one; zero; zero; one; one] = Ok arr
                 /\ List.length arr = 5%nat.
Proof.
  split.
  - apply (proj1 (accretion_length hundred [])). reflexivity.
  - apply (proj2 (accretion_length hundred [one; zero; zero; one; one])).
    discriminate.
Defined.

(** ** NaN samples *)

Section NaNSamples.

Local Open Scope f64_scope.

Lemma add_nan_r (a : float) : a + nan = nan.
Proof. destruct a; reflexivity. Qed.

Lemma mul_nan_r (a : float) : a * nan = nan.
Proof. destruct a; reflexivity. Qed.

Lemma div_nan_r (a : float) : a / nan = nan.
Proof. destruct a; reflexivity. Qed.

Lemma is_nan_eq (a : float) : is_nan a = true -> a = nan.
Proof. destruct a; simpl; intros H; try discriminate H; reflexivity. Qed.

Lemma maximum_nan_l (b : float) : maximum nan b = nan.
Proof. unfold maximum. now rewrite orb_true_r. Qed.

Lemma maximum_nan_r (a : float) : maximum a nan = nan.
Proof.
  unfold maximum. destruct (is_nan a) eqn:Ha.
  - rewrite orb_true_r. now apply is_nan_eq.
  - replace (nan <=? a) with false; [reflexivity | ].
    destruct a; reflexivity.
Qed.

Lemma fold_maximum_nan (l : list float) : fold_left maximum l nan = nan.
Proof. induction l as [ | x l IH]; simpl; [ | rewrite maximum_nan_l]; auto. Qed.

Lemma fold_maximum_has_nan (l : list float) :
  forall acc, existsb is_nan l = true -> fold_left maximum l acc = nan.
Proof.
  induction l as [ | x l IH]; intros acc H; simpl in *; [discriminate | ].
  destruct (is_nan x) eqn:Hx.
  - apply is_nan_eq in Hx. subst x.
    rewrite maximum_nan_r. apply fold_maximum_nan.
  - apply IH. exact H.
Qed.

Lemma cumsum_from_nan (l : list float) :
  forallb is_nan (cumsum_from nan l) = true.
Proof. induction l as [ | x l IH]; simpl; [reflexivity | exact IH]. Qed.

Lemma cumsum_from_has_nan (l : list float) :
  forall acc, existsb is_nan l = true ->
              existsb is_nan (cumsum_from acc l) = true.
Proof.
  induction l as [ | x l IH]; intros acc H; simpl in *; [discriminate | ].
  destruct (is_nan x) eqn:Hx.
  - apply is_nan_eq in Hx. subst x. now rewrite add_nan_r.
  - rewrite IH by exact H. apply orb_true_r.
Qed.

Lemma cumsum_has_nan (l : list float) :
  existsb is_nan l = true -> existsb is_nan (cumsum l) = true.
Proof.
  destruct l as [ | x l]; simpl; [discriminate | ].
  destruct (is_nan x); [reflexivity | apply cumsum_from_has_nan].
Qed.

Lemma existsb_map_nan (f : float -> float) (l : list float) :
  (forall x, is_nan x = true -> is_nan (f x) = true) ->
  existsb is_nan l = true -> existsb is_nan (map f l) = true.
Proof.
  intros Hf. induction l as [ | x l IH]; simpl; [discriminate | ].
  intros H. apply orb_true_iff in H. apply orb_true_iff.
  destruct H as [H | H]; [left; now apply Hf | right; now apply IH].
Qed.

Lemma amax_has_nan (l : list float) :
  existsb is_nan l = true -> amax l = Ok nan.
Proof.
  destruct l as [ | x l]; simpl; [discriminate | intros H].
  f_equal. destruct (is_nan x) eqn:Hx.
  - apply is_nan_eq in Hx. subst x. apply fold_maximum_nan.
  - apply fold_maximum_has_nan. exact H.
Qed.

(** X3.  One NaN sample spoils the whole axis: the accretion model raises
    nothing and returns a sequence in which every coordinate is NaN. *)
Theorem accretion_nan_sample (scale : float) (dim_x : list float) :
  existsb is_nan dim_x = true ->
  exists arr, accretion scale dim_x = Ok arr
              /\ List.length arr = List.length dim_x
              /\ forallb is_nan arr = true.
Proof.
  intros H. unfold accretion.
  set (trajectory := cumsum (map (fun x => x - half) dim_x)).
  assert (Ht : existsb is_nan (map abs trajectory) = true).
  { apply existsb_map_nan; [intros x Hx; now rewrite (is_nan_eq x Hx) | ].
    apply cumsum_has_nan, existsb_map_nan; [ | exact H].
    intros x Hx. now rewrite (is_nan_eq x Hx). }
  rewrite (amax_has_nan _ Ht). cbn [bind].
  change (guarded_max nan) with nan. rewrite div_nan_r.
  eexists. split; [reflexivity | split].
  - unfold trajectory. now rewrite length_map, cumsum_length, length_map.
  - apply forallb_forall. intros y Hy. apply in_map_iff in Hy.
    destruct Hy as [t [<- _]]. now rewrite mul_nan_r.
Qed.

Lemma accretion_nan_sample_witness :
  exists arr, accretion hundred [one; nan; half] = Ok arr
              /\ List.length arr = 3%nat
              /\ forallb is_nan arr = true.
Proof. apply (accretion_nan_sample hundred [one; nan; half]). reflexivity. Defined.

End NaNSamples.

(** ** Samples that are all 0.5 *)

Section ConstantSamples.

Local Open Scope f64_scope.

Lemma cumsum_from_zeros (n : nat) :
  cumsum_from zero (repeat zero n) = repeat zero n.
Proof. induction n as [ | n IH]; simpl; [ | rewrite IH]; reflexivity. Qed.

Lemma fold_maximum_zeros (n : nat) :
  fold_left maximum (repeat zero n) zero = zero.
Proof. induction n as [ | n IH]; simpl; [reflexivity | exact IH]. Qed.

Lemma mul_zero_finite (y : float) :
  is_finite y = true -> is_zero (zero * y) = true.
Proof. destruct y; simpl; try discriminate; reflexivity. Qed.

(** X4.  When every sample is exactly 0.5 the trajectory never leaves the
    origin: the guard makes the divisor 1.0 and, for a scale whose quotient
    by 1.0 is finite, every coordinate returned is a zero. *)
Theorem accretion_constant_samples (scale : float) (n : nat) :
  is_finite (scale / one) = true ->
  exists arr, accretion scale (repeat half (S n)) = Ok arr
              /\ List.length arr = S n
              /\ forallb is_zero arr = true.
Proof.
  intros Hs. unfold accretion.
  assert (Ht : cumsum (map (fun x => x - half) (repeat half (S n)))
               = repeat zero (S n)).
  { rewrite map_repeat. change (half - half) with zero.
    cbn [repeat cumsum]. now rewrite cumsum_from_zeros. }
  rewrite Ht, map_repeat. change (abs zero) with zero.
  change (amax (repeat zero (S n)))
    with (Ok (A := float) (fold_left maximum (repeat zero n) zero)).
  rewrite fold_maximum_zeros. cbn [bind].
  change (guarded_max zero) with one.
  eexists. split; [reflexivity | split].
  - now rewrite length_map, repeat_length.
  - apply forallb_forall. intros y Hy. apply in_map_iff in Hy.
    destruct Hy as [t [<- Ht']].
    apply repeat_spec in Ht'. subst t. apply mul_zero_finite, Hs.
Qed.

Lemma accretion_constant_samples_witness :
  exists arr, accretion hundred (repeat half 4) = Ok arr
              /\ List.length arr = 4%nat
              /\ forallb is_zero arr = true.
Proof. apply (accretion_constant_samples hundred 3). reflexivity. Defined.

End ConstantSamples.

(** ** The columns of the cloud *)

Lemma map_nth_seq {A} (d : A) (l : list A) :
  map (fun i => nth i l d) (seq 0 (List.length l)) = l.
Proof.
  induction l as [ | a l IH]; [reflexivity | ].
  cbn [List.length seq map nth]. f_equal.
  rewrite <- seq_shift, map_map. exact IH.
Qed.

(** [np.column_stack] keeps every sequence as a column. *)
Lemma column_stack_columns (dims : list (list float)) (rows : list row)
        (j : nat) :
  column_stack dims = Ok rows ->
  (j < List.length dims)%nat ->
  map (fun r => nth j r nan) rows = nth j dims [].
Proof.
  intros H Hj. unfold column_stack in H.
  destruct dims as [ | d rest]; [discriminate H | ].
  destruct (forallb _ rest) eqn:Hall; [ | discriminate H].
  injection H as <-. rewrite map_map.
  assert (Hlen : List.length (nth j (d :: rest) []) = List.length d).
  { destruct j as [ | j]; [reflexivity | ]. cbn [nth].
    rewrite forallb_forall in Hall. apply Nat.eqb_eq, Hall, nth_In.
    cbn [List.length] in Hj. lia. }
  rewrite <- Hlen.
  etransitivity; [ | apply (map_nth_seq nan)].
  apply map_ext. intros i.
  destruct j as [ | j]; [reflexivity | ]. cbn [nth].
  rewrite (nth_indep _ nan ((fun col => nth i col nan) []))
    by (rewrite length_map; cbn [List.length] in Hj; lia).
  rewrite (map_nth (fun col => nth i col nan)). reflexivity.
Qed.

(** X5.  [np.column_stack] succeeds exactly when it is given at least one
    sequence and all sequences have the length of the first; the cloud then
    has one row per element and one column per sequence. *)
Theorem column_stack_succeeds_iff (dims : list (list float)) :
  (is_ok (column_stack dims) = true
   <-> dims <> []
       /\ forall d, In d dims -> List.length d = List.length (hd [] dims))
  /\ forall rows, column_stack dims = Ok rows ->
                  List.length rows = List.length (hd [] dims)
                  /\ Forall (fun r => List.length r = List.length dims) rows.
Proof.
  unfold column_stack. destruct dims as [ | d rest]; cbn [hd].
  { split; [ | discriminate].
    split; [discriminate | intros [H _]; congruence]. }
  destruct (forallb _ rest) eqn:Hall.
  - rewrite forallb_forall in Hall. split.
    + split; [intros _ | reflexivity].
      split; [discriminate | ].
      intros d' [<- | Hd]; [reflexivity | apply Nat.eqb_eq, Hall, Hd].
    + intros rows H. injection H as <-.
      rewrite length_map, length_seq. split; [reflexivity | ].
      apply Forall_forall. intros r Hr. apply in_map_iff in Hr.
      destruct Hr as [i [<- _]]. cbn [map List.length]. now rewrite length_map.
  - split; [ | discriminate].
    split; [discriminate | intros [_ H]].
    assert (Habs : forallb (fun d' => Nat.eqb (List.length d') (List.length d))
                           rest = true).
    { apply forallb_forall. intros d' Hd. apply Nat.eqb_eq, H. now right. }
    congruence.
Qed.

(** ** [run] *)

Section Run.

Variable rnse_run : Z -> Z -> result (list sample).

Lemma for_each_Forall2 {A B} (f : A -> result B) (l : list A) :
  forall bs, for_each f l = Ok bs -> Forall2 (fun a b => f a = Ok b) l bs.
Proof.
  induction l as [ | a l IH]; simpl; intros bs H.
  - injection H as <-. constructor.
  - destruct (f a) as [b | c] eqn:Ha; cbn [bind] in H; [ | discriminate H].
    destruct (for_each f l) as [bs' | c]; cbn [bind] in H; [ | discriminate H].
    injection H as <-. constructor; [exact Ha | apply IH; reflexivity].
Qed.

Lemma for_each_first_failure {A B} (f : A -> result B) (l1 l2 : list A)
      (a : A) (c : string) :
  (forall x, In x l1 -> exists b, f x = Ok b) ->
  f a = Raise c ->
  for_each f (l1 ++ a :: l2) = Raise c.
Proof.
  intros H1 Ha. induction l1 as [ | x l1 IH]; simpl.
  - now rewrite Ha.
  - destruct (H1 x (or_introl eq_refl)) as [b ->]. cbn [bind].
    rewrite IH; [reflexivity | ]. intros y Hy. apply H1. now right.
Qed.

(** X6.  With no thread (a thread count of zero or less) [run] calls the
    engine for nothing and fails with [ValueError]: there is no array to
    stack. *)
Theorem run_without_threads (config : SimulationConfig) :
  threads config <= 0 -> run rnse_run config = Raise "ValueError".
Proof.
  intros H. unfold run, seeds, range.
  replace (Z.to_nat (threads config)) with 0%nat by lia. reflexivity.
Qed.

(** X7.  A successful [run] returns a rectangular cloud: one row per
    sample of the first dimension, one column per thread, and one weight
    per row. *)
Theorem run_shape (config : SimulationConfig) (coords : list row)
        (mass : list float) :
  run rnse_run config = Ok (coords, mass) ->
  0 < threads config
  /\ List.length mass = List.length coords
  /\ Forall (fun r => List.length r = Z.to_nat (threads config)) coords
  /\ exists recs, rnse_run (rng_seed config) (n_particles config) = Ok recs
                  /\ List.length recs = List.length coords.
Proof.
  unfold run. intros H.
  destruct (for_each _ (seeds config)) as [per_dim | c] eqn:Hfe;
    cbn [bind] in H; [ | discriminate H].
  pose proof (for_each_Forall2 _ _ _ Hfe) as Hall.
  pose proof (Forall2_length Hall) as Hlen.
  destruct (column_stack (map fst per_dim)) as [rows | c] eqn:Hcs;
    cbn [bind] in H; [ | discriminate H].
  injection H as <- <-.
  destruct per_dim as [ | [arr0 c0] per_dim']; [discriminate Hcs | ].
  unfold column_stack in Hcs. cbn [map fst] in Hcs.
  destruct (forallb _ _); [ | discriminate Hcs]. injection Hcs as <-.
  assert (Hthreads : List.length (seeds config) = Z.to_nat (threads config))
    by (unfold seeds, range; now rewrite !length_map, length_seq).
  cbn [List.length] in Hlen.
  split; [lia | ].
  destruct (seeds config) as [ | s0 ss] eqn:Hseeds; [discriminate Hlen | ].
  assert (Hs0 : s0 = rng_seed config).
  { unfold seeds, range in Hseeds.
    destruct (Z.to_nat (threads config)); [discriminate Hseeds | ].
    cbn in Hseeds. injection Hseeds as H1 _. lia. }
  inversion Hall as [ | ? ? ? ? H0 _]; subst.
  destruct (rnse_run (rng_seed config) (n_particles config))
    as [recs | c] eqn:Hrecs; cbn [bind] in H0; [ | discriminate H0].
  destruct (accretion_cases (scale config) (map sample_x recs))
    as [[_ Hacc] | [arr [Hacc Larr]]]; rewrite Hacc in H0; cbn [bind] in H0;
    [discriminate H0 | ].
  injection H0 as <- <-. rewrite length_map in Larr.
  rewrite !length_map, length_seq.
  split; [lia | split].
  - apply Forall_forall. intros r Hr. apply in_map_iff in Hr.
    destruct Hr as [i [<- _]]. cbn [List.length map].
    rewrite !length_map. cbn [List.length] in Hlen, Hthreads. lia.
  - exists recs. split; [reflexivity | lia].
Qed.

(** X8.  An engine failure is not handled: when the engine raises on a seed
    after returning samples for the seeds before it, [run] raises the same
    exception. *)
Theorem run_engine_failure (config : SimulationConfig) (before after : list Z)
        (failing : Z) (c : string) :
  seeds config = before ++ failing :: after ->
  (forall s, In s before ->
             exists recs, rnse_run s (n_particles config) = Ok recs
                          /\ recs <> []) ->
  rnse_run failing (n_particles config) = Raise c ->
  run rnse_run config = Raise c.
Proof.
  intros Hseeds Hbefore Hfail. unfold run. rewrite Hseeds.
  rewrite (for_each_first_failure _ before after failing c); [reflexivity | | ].
  - intros s Hs. destruct (Hbefore s Hs) as [recs [-> Hne]]. cbn [bind].
    destruct (accretion_cases (scale config) (map sample_x recs))
      as [[E _] | [arr [-> _]]].
    + destruct recs; [congruence | discriminate E].
    + cbn [bind]. eexists. reflexivity.
  - now rewrite Hfail.
Qed.

End Run.

Lemma run_without_threads_witness :
  run engine_two {| n_particles := 10; scale := hundred; threads := 0;
                    coupling := one_twentieth; rng_seed := default_seed |}
  = Raise "ValueError".
Proof. apply run_without_threads. simpl. lia. Defined.

Lemma run_shape_witness :
  run engine_two default_config
  = Ok ([ [hundred; hundred; hundred]; [zero; zero; zero] ], [half; one])
  /\ exists recs,
       engine_two (rng_seed default_config) (n_particles default_config)
       = Ok recs
       /\ List.length recs = 2%nat.
Proof.
  assert (H : run engine_two default_config
              = Ok ([ [hundred; hundred; hundred]; [zero; zero; zero] ],
                    [half; one]))
    by (vm_compute; reflexivity).
  split; [exact H | ].
  exact (proj2 (proj2 (proj2 (run_shape engine_two default_config _ _ H)))).
Defined.

Lemma run_engine_failure_witness :
  run engine_failing default_config = Raise "RuntimeError".
Proof.
  apply (run_engine_failure engine_failing default_config
           [default_seed] [default_seed + 0x2000] (default_seed + 0x1000)).
  - reflexivity.
  - intros s [<- | []]. exists two_samples. split; [reflexivity | discriminate].
  - reflexivity.
Defined.

Lemma column_stack_ok_lengths (dims : list (list float)) (rows : list row) :
  column_stack dims = Ok rows ->
  forall d, In d dims -> List.length d = List.length rows.
Proof.
  unfold column_stack. destruct dims as [ | d0 rest]; [discriminate | ].
  destruct (forallb _ rest) eqn:Hall; [ | discriminate].
  intros H. injection H as <-. rewrite length_map, length_seq.
  rewrite forallb_forall in Hall.
  intros d [<- | Hd]; [reflexivity | apply Nat.eqb_eq, Hall, Hd].
Qed.

Lemma column_stack_raises_value_error (dims : list (list float)) (c : string) :
  column_stack dims = Raise c -> c = "ValueError"%string.
Proof.
  unfold column_stack. destruct dims as [ | d0 rest].
  - intros H. now injection H as <-.
  - destruct (forallb _ rest); [discriminate | ].
    intros H. now injection H as <-.
Qed.

Lemma for_each_raise_class {A B} (f : A -> result B) (cls : string)
      (l : list A) :
  (forall x c, In x l -> f x = Raise c -> c = cls) ->
  forall c, for_each f l = Raise c -> c = cls.
Proof.
  induction l as [ | a l IH]; intros H c; simpl; [discriminate | ].
  destruct (f a) as [b | c'] eqn:Ha; cbn [bind].
  - destruct (for_each f l) as [bs | c''] eqn:Hl; cbn [bind]; [discriminate | ].
    intros E. injection E as <-. apply IH; [ | reflexivity].
    intros x c0 Hx. apply H. now right.
  - intros E. injection E as <-. apply (H a); [now left | exact Ha].
Qed.

Lemma Forall2_In_l {A B} (R : A -> B -> Prop) (l : list A) (l' : list B) :
  Forall2 R l l' -> forall a, In a l -> exists b, In b l' /\ R a b.
Proof.
  induction 1 as [ | a b l l' Hab Hl IH]; intros x Hx; [destruct Hx | ].
  destruct Hx as [<- | Hx]; [exists b; split; [now left | exact Hab] | ].
  destruct (IH x Hx) as [y [Hy Hxy]]. exists y. split; [now right | exact Hxy].
Qed.

Section Ragged.

Variable rnse_run : Z -> Z -> result (list sample).

(** X9.  [run] never returns a ragged cloud: when the engine answers every
    seed but gives two of them sample sequences of different lengths, the
    simulation fails with [ValueError], whatever the number of threads. *)
Theorem run_ragged_raises (config : SimulationConfig) (s1 s2 : Z)
        (recs1 recs2 : list sample) :
  (forall s, In s (seeds config) ->
             exists recs, rnse_run s (n_particles config) = Ok recs) ->
  In s1 (seeds config) -> In s2 (seeds config) ->
  rnse_run s1 (n_particles config) = Ok recs1 ->
  rnse_run s2 (n_particles config) = Ok recs2 ->
  List.length recs1 <> List.length recs2 ->
  run rnse_run config = Raise "ValueError".
Proof.
  intros Hall H1 H2 E1 E2 Hne. unfold run.
  set (f := fun seed =>
              do recs <- rnse_run seed (n_particles config);
              do arr <- accretion (scale config) (map sample_x recs);
              Ok (arr, map sample_C recs)).
  assert (Hcls : forall x c, In x (seeds config) -> f x = Raise c ->
                             c = "ValueError"%string).
  { intros x c Hx. unfold f. destruct (Hall x Hx) as [recs ->]. cbn [bind].
    destruct (accretion_cases (scale config) (map sample_x recs))
      as [[_ ->] | [arr [-> _]]]; cbn [bind]; [ | discriminate].
    intros E. now injection E as <-. }
  destruct (for_each f (seeds config)) as [per_dim | c] eqn:Hfe; cbn [bind].
  2: { now rewrite (for_each_raise_class f _ _ Hcls c Hfe). }
  pose proof (for_each_Forall2 _ _ _ Hfe) as HF.
  destruct (column_stack (map fst per_dim)) as [rows | c] eqn:Hcs; cbn [bind].
  2: { now rewrite (column_stack_raises_value_error _ _ Hcs). }
  exfalso. apply Hne.
  assert (Hlen : forall s recs, In s (seeds config) ->
                                rnse_run s (n_particles config) = Ok recs ->
                                List.length recs = List.length rows).
  { intros s recs Hs Hrecs. destruct (Forall2_In_l _ _ _ HF s Hs) as [b [Hb Hfb]].
    unfold f in Hfb. rewrite Hrecs in Hfb. cbn [bind] in Hfb.
    destruct (accretion_cases (scale config) (map sample_x recs))
      as [[_ Hacc] | [arr [Hacc Larr]]]; rewrite Hacc in Hfb; cbn [bind] in Hfb;
      [discriminate Hfb | ].
    injection Hfb as <-. rewrite length_map in Larr. rewrite <- Larr.
    apply (column_stack_ok_lengths _ _ Hcs).
    apply in_map_iff. eexists. split; [ | exact Hb]. reflexivity. }
  rewrite (Hlen s1 recs1 H1 E1), (Hlen s2 recs2 H2 E2). reflexivity.
Qed.

End Ragged.

Lemma run_ragged_raises_witness :
  run engine_ragged default_config = Raise "ValueError".
Proof.
  apply (run_ragged_raises engine_ragged default_config
           default_seed (default_seed + 0x1000)
           (repeat {| sample_x := one; sample_C := half |} 1)
           (repeat {| sample_x := one; sample_C := half |} 2)).
  - intros s _. eexists. reflexivity.
  - left. reflexivity.
  - right. left. reflexivity.
  - reflexivity.
  - reflexivity.
  - simpl. discriminate.
Defined.

Lemma Forall2_nth {A B} (R : A -> B -> Prop) (l : list A) (l' : list B)
      (da : A) (db : B) :
  Forall2 R l l' ->
  forall j, (j < List.length l)%nat -> R (nth j l da) (nth j l' db).
Proof.
  induction 1 as [ | a b l l' Hab Hl IH]; intros j Hj; simpl in Hj; [lia | ].
  destruct j as [ | j]; [exact Hab | apply IH; lia].
Qed.

Section RunColumns.

Variable rnse_run : Z -> Z -> result (list sample).

(** X10.  In the cloud that [run] returns, column [j] is the accretion of the
    samples the engine gave for the [j]-th seed, and the weights are the
    complexity values of the first seed's samples. *)
Theorem run_columns (config : SimulationConfig) (coords : list row)
        (mass : list float) (j : nat) :
  run rnse_run config = Ok (coords, mass) ->
  (j < Z.to_nat (threads config))%nat ->
  exists recs,
    rnse_run (rng_seed config + Z.of_nat j * 0x1000) (n_particles config)
    = Ok recs
    /\ accretion (scale config) (map sample_x recs)
       = Ok (map (fun r => nth j r nan) coords)
    /\ (j = 0%nat -> mass = map sample_C recs).
Proof.
  unfold run. intros H Hj.
  destruct (for_each _ (seeds config)) as [per_dim | c] eqn:Hfe;
    cbn [bind] in H; [ | discriminate H].
  pose proof (for_each_Forall2 _ _ _ Hfe) as Hall.
  pose proof (Forall2_length Hall) as Hlen.
  destruct (column_stack (map fst per_dim)) as [rows | c] eqn:Hcs;
    cbn [bind] in H; [ | discriminate H].
  injection H as <- <-.
  assert (Hthreads : List.length (seeds config) = Z.to_nat (threads config))
    by (unfold seeds, range; now rewrite !length_map, length_seq).
  pose proof (Forall2_nth _ _ _ 0 ([], []) Hall j ltac:(lia)) as Hj'.
  cbv beta in Hj'. rewrite (seeds_nth config j Hj) in Hj'.
  destruct (rnse_run _ (n_particles config)) as [recs | c] eqn:Hrecs;
    cbn [bind] in Hj'; [ | discriminate Hj'].
  destruct (accretion (scale config) (map sample_x recs)) as [arr | c]
    eqn:Hacc; cbn [bind] in Hj'; [ | discriminate Hj'].
  exists recs. split; [reflexivity | split].
  - rewrite (column_stack_columns _ _ j Hcs) by (rewrite length_map; lia).
    rewrite (nth_indep _ [] (fst (@nil float, @nil float)))
      by (rewrite length_map; lia).
    rewrite map_nth, Hacc. injection Hj' as Hj'. rewrite <- Hj'. reflexivity.
  - intros ->. destruct per_dim as [ | [a0 c0] rest]; [discriminate Hcs | ].
    cbn [nth] in Hj'. injection Hj' as _ <-. reflexivity.
Qed.

End RunColumns.

Lemma run_columns_witness :
  exists recs,
    engine_two (rng_seed default_config + Z.of_nat 1 * 0x1000)
               (n_particles default_config) = Ok recs
    /\ accretion (scale default_config) (map sample_x recs)
       = Ok (map (fun r => nth 1 r nan)
                 [ [hundred; hundred; hundred]; [zero; zero; zero] ])
    /\ (1%nat = 0%nat -> [half; one] = map sample_C recs).
Proof.
  apply (run_columns engine_two default_config
           [ [hundred; hundred; hundred]; [zero; zero; zero] ] [half; one] 1).
  - vm_compute. reflexivity.
  - vm_compute. lia.
Defined.

(** ** When the analysis succeeds *)

Lemma fold_minimum_In (l : list float) :
  forall acc, In (fold_left minimum l acc) (acc :: l).
Proof.
  induction l as [ | x l IH]; intros acc; simpl; [now left | ].
  destruct (IH (minimum acc x)) as [H | H]; [ | now right; right].
  rewrite <- H. unfold minimum. destruct (_ || _); [now left | now right; left].
Qed.

Lemma fold_maximum_In (l : list float) :
  forall acc, In (fold_left maximum l acc) (acc :: l).
Proof.
  induction l as [ | x l IH]; intros acc; simpl; [now left | ].
  destruct (IH (maximum acc x)) as [H | H]; [ | now right; right].
  rewrite <- H. unfold maximum. destruct (_ || _); [now left | now right; left].
Qed.

Lemma amin_In (l : list float) (v : float) : amin l = Ok v -> In v l.
Proof.
  destruct l as [ | x l]; simpl; intros H; [discriminate H | ].
  injection H as <-. apply fold_minimum_In.
Qed.

Lemma amax_In (l : list float) (v : float) : amax l = Ok v -> In v l.
Proof.
  destruct l as [ | x l]; simpl; intros H; [discriminate H | ].
  injection H as <-. apply fold_maximum_In.
Qed.

(** X11.  The analysis returns a result exactly when there are at least two
    particles and neither partition is empty. *)
Theorem analyze_succeeds_iff (coords : list row) (mass : list float) :
  let r := radii coords in
  let m := median r in
  is_ok (analyze_rotation_curve coords mass) = true
  <-> (2 <= List.length coords)%nat
      /\ select (inner_mask r m) r <> []
      /\ select (outer_mask r m) r <> [].
Proof.
  intros r m. unfold analyze_rotation_curve, gradient.
  destruct (Nat.ltb_spec (List.length coords) 2) as [Hlt | Hge].
  - cbn. split; [discriminate | lia].
  - cbn [bind]. fold r. fold m.
    destruct (select (inner_mask r m) r) as [ | a l]; cbn [amin bind].
    + cbn. split; [discriminate | intros [_ [H _]]; congruence].
    + destruct (select (outer_mask r m) r) as [ | b l']; cbn [amax bind].
      * cbn. split; [discriminate | intros [_ [_ H]]; congruence].
      * cbn. split; [intros _ | reflexivity].
        repeat split; try assumption; discriminate.
Qed.

(** X12.  On success the analysis reports the particle count, which is at
    least 2, the median of the radii, and two radii of the cloud that lie
    strictly on either side of the median. *)
Theorem analyze_result_brackets_median (coords : list row) (mass : list float)
        (res : RotationCurveResult) :
  analyze_rotation_curve coords mass = Ok res ->
  2 <= total_particles res
  /\ total_particles res = Z.of_nat (List.length coords)
  /\ median_radius res = median (radii coords)
  /\ In (inner_radius res) (radii coords)
  /\ In (outer_radius res) (radii coords)
  /\ (inner_radius res <? median_radius res)%f64 = true
  /\ (median_radius res <? outer_radius res)%f64 = true.
Proof.
  unfold analyze_rotation_curve, gradient.
  destruct (Nat.ltb_spec (List.length coords) 2) as [Hlt | Hge];
    [discriminate | ].
  cbn [bind].
  set (r := radii coords). set (m := median r).
  destruct (amin (select (inner_mask r m) r)) as [lo | c] eqn:Hlo;
    cbn [bind]; [ | discriminate].
  destruct (amax (select (outer_mask r m) r)) as [hi | c] eqn:Hhi;
    cbn [bind]; [ | discriminate].
  intros H. injection H as <-. cbn.
  apply amin_In in Hlo. apply amax_In in Hhi.
  unfold inner_mask in Hlo. unfold outer_mask in Hhi.
  rewrite select_map in Hlo, Hhi.
  apply filter_In in Hlo. apply filter_In in Hhi.
  repeat split; try tauto; lia.
Qed.

Lemma analyze_result_brackets_median_witness :
  exists res, analyze_rotation_curve cloud_four [one; one; one; one] = Ok res
              /\ (inner_radius res <? median_radius res)%f64 = true
              /\ (median_radius res <? outer_radius res)%f64 = true.
Proof.
  destruct (analyze_rotation_curve cloud_four [one; one; one; one])
    as [res | c] eqn:H; [ | vm_compute in H; discriminate H].
  exists res. split; [reflexivity | ].
  apply (analyze_result_brackets_median cloud_four [one; one; one; one] res H).
Defined.

(** X13.  For a cloud with no NaN coordinate, the radii that a successful
    analysis reports (inner, outer and median) are neither NaN nor
    negative. *)
Theorem analyze_radii_nonneg (coords : list row) (mass : list float)
        (res : RotationCurveResult) :
  has_nan coords = false ->
  analyze_rotation_curve coords mass = Ok res ->
  nonneg (inner_radius res) = true
  /\ nonneg (outer_radius res) = true
  /\ nonneg (median_radius res) = true.
Proof.
  intros Hnan. pose proof (radii_nonneg _ (has_nan_false _ Hnan)) as Hr.
  unfold analyze_rotation_curve, gradient.
  destruct (Nat.ltb_spec (List.length coords) 2) as [Hlt | Hge];
    [discriminate | ].
  cbn [bind].
  set (r := radii coords) in *. set (m := median r).
  destruct (amin (select (inner_mask r m) r)) as [lo | c] eqn:Hlo;
    cbn [bind]; [ | discriminate].
  destruct (amax (select (outer_mask r m) r)) as [hi | c] eqn:Hhi;
    cbn [bind]; [ | discriminate].
  intros H. injection H as <-. cbn.
  apply amin_In in Hlo. apply amax_In in Hhi.
  unfold inner_mask in Hlo. unfold outer_mask in Hhi.
  rewrite select_map in Hlo, Hhi.
  apply filter_In in Hlo. apply filter_In in Hhi.
  rewrite Forall_forall in Hr.
  split; [apply Hr; tauto | split; [apply Hr; tauto | ]].
  apply median_nonneg; [ | apply Forall_forall; exact Hr].
  unfold r, radii. destruct coords; [simpl in Hge; lia | discriminate].
Qed.

Lemma analyze_radii_nonneg_witness :
  exists res, analyze_rotation_curve cloud_four [one; one; one; one] = Ok res
              /\ nonneg (inner_radius res) = true
              /\ nonneg (outer_radius res) = true
              /\ nonneg (median_radius res) = true.
Proof.
  destruct (analyze_rotation_curve cloud_four [one; one; one; one])
    as [res | c] eqn:H; [ | vm_compute in H; discriminate H].
  exists res. split; [reflexivity | ].
  apply (analyze_radii_nonneg cloud_four [one; one; one; one] res);
    [reflexivity | exact H].
Defined.

(** ** Inner and outer never overlap *)

Lemma filter_two_way {A} (f g : A -> bool) (l : list A) :
  (forall x, f x = true -> g x = false) ->
  (List.length (filter f l) + List.length (filter g l) <= List.length l)%nat.
Proof.
  intros H. induction l as [ | a l IH]; simpl; [lia | ].
  destruct (f a) eqn:Fa; simpl.
  - rewrite (H a Fa). lia.
  - destruct (g a); simpl; lia.
Qed.

(** X14.  For every cloud, NaN included, no radius is both below and above
    the median, so the inner and the outer population together never hold
    more particles than the cloud. *)
Theorem partition_disjoint (coords : list row) :
  let r := radii coords in
  let m := median r in
  (forall x, (x <? m)%f64 = true -> (m <? x)%f64 = false)
  /\ (List.length (select (inner_mask r m) r)
      + List.length (select (outer_mask r m) r)
      <= List.length coords)%nat.
Proof.
  intros r m.
  assert (H : forall x, (x <? m)%f64 = true -> (m <? x)%f64 = false).
  { intros x Hx. unfold ltb, SFltb in *. rewrite (SFcompare_antisym x m).
    destruct (SFcompare x m) as [[ | | ] | ]; simpl; congruence. }
  split; [exact H | ].
  unfold inner_mask, outer_mask. rewrite !select_map.
  replace (List.length coords) with (List.length r)
    by (unfold r, radii; apply length_map).
  apply filter_two_way, H.
Qed.

Local Open Scope string_scope.

(** ** The ledger *)

(** X15.  The ledger is append-only under its two methods: after any
    sequence of [add_result] and [finalize] calls the metadata is unchanged
    and the entries are the earlier ones followed by the added ones, in call
    order. *)
Theorem ledger_append_only (cs : list ledger_call) :
  forall log,
    metadata (calls log cs) = metadata log
    /\ entries (calls log cs) = (entries log ++ added cs)%list.
Proof.
  unfold calls. induction cs as [ | c cs IH]; intros log; simpl.
  - now rewrite app_nil_r.
  - destruct (IH (call log c)) as [Hm He]. rewrite Hm, He.
    destruct c as [key value now | ]; simpl; [ | split; reflexivity].
    now rewrite <- app_assoc.
Qed.

(** ** The digest *)









(** ** Strings can be read back *)





(** ** What the digested text pins down *)










